(** * Verification of the pricing and negotiation logic of otoz-chat-demo

    Shallow embedding of
    - [calculate_total_price] (src/utils.py) with the shipping constants of
      src/config.py, and
    - the negotiation handlers of [SalesAgent] (src/app.py):
      [initiate_negotiation], [_handle_discount_inquiry],
      [_handle_negotiation], [_handle_accept_offer], [_handle_reject_offer];
    - its browsing handlers: [_handle_show_deals], [_handle_search_vehicle],
      [_handle_show_next_deal], [_handle_request_invoice];
    - the reading of chat messages ([_parse_intent] up to the amount, and
      the make it reads), [_format_price] and the dispatch of [respond].

    Numbers.  Python ints are [Z].  The decimal constants of the source
    (0.025, 0.12, 0.97, 0.98, 1.02) are modelled as the exact rationals they
    denote; the values they produce are kept in [Q].  An expression
    [int(x / 1000) * 1000] truncates towards zero, which is [Z.quot]. *)

From Stdlib Require Import ZArith QArith String Ascii List Bool Lia.
Import ListNotations.
Open Scope Z_scope.

(* ------------------------------------------------------------------ *)
(** ** src/config.py : shipping cost parameters (JPY) *)

Definition DOMESTIC_TRANSPORT : Q := inject_Z 50000.
Definition FREIGHT_COST : Q := inject_Z 150000.
Definition INSURANCE_RATE : Q := 25 # 1000.

(* ------------------------------------------------------------------ *)
(** ** src/utils.py : [calculate_total_price] *)

(** The dict built by the function, one field per key, in insertion order
    ([base_price], [domestic_transport], [freight_cost], [insurance],
    [total_price]). *)
Record breakdown := {
  base_price : Q;
  domestic_transport : Q;
  freight_cost : Q;
  insurance : Q;
  total_price : Q
}.

(** [option in [...]]: [option] is any Python value; [None] is [None]. *)
Definition in_list (option : option string) (l : list string) : bool :=
  match option with
  | Some s => existsb (String.eqb s) l
  | None => false
  end.

(** [option == "CIF"]. *)
Definition option_eq (option : option string) (s : string) : bool :=
  match option with
  | Some s' => String.eqb s' s
  | None => false
  end.

(** [calculate_total_price(base_price, option)]: no validation of
    [base_price]; [total_price] is [sum(breakdown.values())] taken over the
    four entries present at that point, i.e. [0 + base + dt + fc + ins].
    The float arithmetic is kept exact in [Q]: rounding is not modelled. *)
Definition calculate_total_price (base_price0 : Q) (option : option string)
  : breakdown :=
  let dt := if in_list option ["FOB"; "C&F"; "CIF"]%string
            then DOMESTIC_TRANSPORT else 0%Q in
  let fc := if in_list option ["C&F"; "CIF"]%string
            then FREIGHT_COST else 0%Q in
  let ins := if option_eq option "CIF"
             then (let cost_and_freight := (base_price0 + fc)%Q in
                   cost_and_freight * INSURANCE_RATE)%Q
             else 0%Q in
  {| base_price := base_price0;
     domestic_transport := dt;
     freight_cost := fc;
     insurance := ins;
     total_price := (0 + base_price0 + dt + fc + ins)%Q |}.

(* ------------------------------------------------------------------ *)
(** ** src/app.py : negotiation state of [SalesAgent] *)

Definition NEGOTIATION_MAX_DISCOUNT : Q := 12 # 100.

(** The vehicle record handed to [initiate_negotiation]; only the keys the
    negotiation handlers read. *)
Record car := {
  car_year : Z;
  car_make : string;
  car_model : string;
  price : Z
}.

(** Values of the ['step'] key. *)
Inductive step := Initial | Countered | Accepted.

Definition step_eqb (a b : step) : bool :=
  match a, b with
  | Initial, Initial | Countered, Countered | Accepted, Accepted => true
  | _, _ => false
  end.

(** The [negotiation_context] dict.  A missing key and a key holding [None]
    are both [None] (the code reads them with [.get]).  Prices stored in
    the dict are ints except [floor_price], a float, which the below-floor
    branch also copies into [last_agent_offer] and [final_price]; they are
    all kept in [Q]. *)
Record ctx := {
  ctx_car : car;
  original_price : Z;
  floor_price : Q;
  ctx_step : step;
  last_agent_offer : option Q;
  final_price : option Q
}.

(** The assistant messages the handlers append, each with the amount it
    shows through [_format_price] (formatting is presentation only). *)
Inductive message :=
| MsgOpeningAsk (listed : Z)            (* initiate_negotiation *)
| MsgWhichCar                          (* discount inquiry, no context *)
| MsgSpecialPrice (p : Z)              (* discount inquiry *)
| MsgFantasticOffer (p : Z)            (* rule 1: accept the buyer's offer *)
| MsgAskingPrice (p : Z)               (* rule 2: accept the asking price *)
| MsgStrongOffer (p : Z)               (* rule 3: counter-offer *)
| MsgAbsoluteBest (p : Q)              (* below floor *)
| MsgSelectCarFirst                    (* accept, no context *)
| MsgDealConfirmed (p : Q)             (* accept, deal closed *)
| MsgWhatFinalPrice                    (* accept, nothing to accept *)
| MsgNoProblem.                        (* reject *)

(** The part of [st.session_state] the negotiation handlers read or write.
    [query_context] is kept as an association list; display-only keys
    ([current_car_to_display], search results) are not modelled. *)
Record session := {
  history : list message;
  negotiation_context : option ctx;
  last_deal_context : option ctx;
  invoice_to_render : option ctx;
  query_context : list (string * string)
}.

Definition set_history (s : session) (h : list message) : session :=
  {| history := h; negotiation_context := negotiation_context s;
     last_deal_context := last_deal_context s;
     invoice_to_render := invoice_to_render s;
     query_context := query_context s |}.

Definition set_negotiation_context (s : session) (c : option ctx) : session :=
  {| history := history s; negotiation_context := c;
     last_deal_context := last_deal_context s;
     invoice_to_render := invoice_to_render s;
     query_context := query_context s |}.

(** [self.add_message("assistant", ...)] *)
Definition add_message (s : session) (m : message) : session :=
  set_history s (history s ++ [m]).

(** [ctx.update({...})] for the three keys the handlers write. *)
Definition ctx_update (c : ctx) (fp : option Q) (st : step) (lao : option Q)
  : ctx :=
  {| ctx_car := ctx_car c; original_price := original_price c;
     floor_price := floor_price c; ctx_step := st;
     last_agent_offer := lao; final_price := fp |}.

(** Python truthiness of an optional number: [None] and [0] are false. *)
Definition truthy (o : option Q) : bool :=
  match o with
  | Some x => negb (Qeq_bool x 0)
  | None => false
  end.

(** [initiate_negotiation(car_data)] *)
Definition initiate_negotiation (car_data : car) (s : session) : session :=
  let original_price0 := price car_data in
  let c := {| ctx_car := car_data; original_price := original_price0;
              floor_price := (inject_Z original_price0
                              * (1 - NEGOTIATION_MAX_DISCOUNT))%Q;
              ctx_step := Initial; last_agent_offer := None;
              final_price := None |} in
  add_message (set_negotiation_context s (Some c)) (MsgOpeningAsk original_price0).

(** [_handle_discount_inquiry()]:
    [int((price * 0.97) / 1000) * 1000]. *)
Definition handle_discount_inquiry (s : session) : session :=
  match negotiation_context s with
  | None => add_message s MsgWhichCar
  | Some c =>
      let price0 := original_price c in
      let opening_discount_price := Z.quot (price0 * 97) 100000 * 1000 in
      let s1 := add_message s (MsgSpecialPrice opening_discount_price) in
      set_negotiation_context s1
        (Some (ctx_update c (final_price c) Countered
                 (Some (inject_Z opening_discount_price))))
  end.

(** The counter-offer computation of [_handle_negotiation]:
    [int(((offer + price) / 2) / 1000) * 1000], then the cap
    [int((price * 0.98)/1000) * 1000], then the bump
    [int((offer * 1.02)/1000) * 1000], in that order. *)
Definition counter_offer (offer price0 : Z) : Z :=
  let c0 := Z.quot (offer + price0) 2000 * 1000 in
  let c1 := if price0 <=? c0 then Z.quot (price0 * 98) 100000 * 1000 else c0 in
  if c1 <=? offer then Z.quot (offer * 102) 100000 * 1000 else c1.

(** [ctx.get('last_agent_offer') and offer_amount_base >= ctx['last_agent_offer']] *)
Definition rule1_fires (c : ctx) (offer : Z) : bool :=
  match last_agent_offer c with
  | Some lao => negb (Qeq_bool lao 0) && Qle_bool lao (inject_Z offer)
  | None => false
  end.

(** [_handle_negotiation(offer_amount_base)], for a numeric offer.  (The
    dispatcher [respond] passes the whole [params] dict as the argument;
    the handler is modelled as its body reads, on the number.) *)
Definition handle_negotiation (offer : Z) (s : session) : session :=
  match negotiation_context s with
  | None => s
  | Some c =>
      let price0 := original_price c in
      let fl := floor_price c in
      if rule1_fires c offer then
        set_negotiation_context (add_message s (MsgFantasticOffer offer))
          (Some (ctx_update c (Some (inject_Z offer)) Accepted (last_agent_offer c)))
      else if price0 <=? offer then
        set_negotiation_context (add_message s (MsgAskingPrice price0))
          (Some (ctx_update c (Some (inject_Z price0)) Accepted (last_agent_offer c)))
      else if Qle_bool fl (inject_Z offer) then
        let co := counter_offer offer price0 in
        set_negotiation_context (add_message s (MsgStrongOffer co))
          (Some (ctx_update c (Some (inject_Z co)) Countered (Some (inject_Z co))))
      else
        set_negotiation_context (add_message s (MsgAbsoluteBest fl))
          (Some (ctx_update c (Some fl) Countered (Some fl)))
  end.

(** [_handle_accept_offer()] *)
Definition handle_accept_offer (s : session) : session :=
  match negotiation_context s with
  | None => add_message s MsgSelectCarFirst
  | Some c =>
      let price_to_accept :=
        if negb (truthy (final_price c)) && step_eqb (ctx_step c) Initial
        then Some (inject_Z (original_price c)) else final_price c in
      match price_to_accept with
      | Some p =>
          if negb (Qeq_bool p 0) then
            let c' := ctx_update c (Some p) (ctx_step c) (last_agent_offer c) in
            let s1 := add_message s (MsgDealConfirmed p) in
            {| history := history s1; negotiation_context := None;
               last_deal_context := Some c'; invoice_to_render := Some c';
               query_context := [] |}
          else add_message s MsgWhatFinalPrice
      | None => add_message s MsgWhatFinalPrice
      end
  end.

(** [_handle_reject_offer()]; the following [_handle_show_next_deal] only
    touches display state. *)
Definition handle_reject_offer (s : session) : session :=
  set_negotiation_context (add_message s MsgNoProblem) None.

(* ------------------------------------------------------------------ *)
(** ** Sessions driven by a sequence of handler calls *)

(** The defaults of [_initialize_state] for the modelled keys. *)
Definition empty_session : session :=
  {| history := []; negotiation_context := None; last_deal_context := None;
     invoice_to_render := None; query_context := [] |}.

(** The negotiation commands a user can trigger. *)
Inductive command :=
| CInitiate (c : car)
| CDiscount
| COffer (amount : Z)
| CAccept
| CReject.

Definition exec (cm : command) (s : session) : session :=
  match cm with
  | CInitiate c => initiate_negotiation c s
  | CDiscount => handle_discount_inquiry s
  | COffer a => handle_negotiation a s
  | CAccept => handle_accept_offer s
  | CReject => handle_reject_offer s
  end.

Fixpoint run (cms : list command) (s : session) : session :=
  match cms with
  | [] => s
  | cm :: rest => run rest (exec cm s)
  end.

(** The last message the assistant sent. *)
Definition last_message (s : session) : message := last (history s) MsgNoProblem.

(** [accept()] closes the deal of context [c] at price [p]: the context,
    with [final_price] set to [p], becomes the last deal and the invoice to
    render, the session is closed and the confirmation names [p]. *)
Definition accept_closes (s : session) (c : ctx) (p : Q) : Prop :=
  let c' := ctx_update c (Some p) (ctx_step c) (last_agent_offer c) in
  let s' := handle_accept_offer s in
  negotiation_context s' = None /\ last_deal_context s' = Some c'
  /\ invoice_to_render s' = Some c' /\ last_message s' = MsgDealConfirmed p.

(** How far an answer to an offer goes towards a deal: a rejection with the
    floor price (0), a counter-offer (1), an acceptance (2). *)
Definition outcome_rank (m : message) : nat :=
  match m with
  | MsgFantasticOffer _ | MsgAskingPrice _ => 2
  | MsgStrongOffer _ => 1
  | _ => 0
  end.

(** A Toyota listed at [p] yen, negotiated from an empty session. *)
Definition toyota (p : Z) : car :=
  {| car_year := 2020; car_make := "Toyota"; car_model := "Aqua"; price := p |}.

Definition fresh (p : Z) : session := initiate_negotiation (toyota p) empty_session.

(* ------------------------------------------------------------------ *)
(** ** src/app.py : browsing the inventory *)

(** One record of [inventory_df], as [to_dict('records')] yields it. *)
Record row := {
  r_id : string;
  r_make : string;
  r_model : string;
  r_year : Z;
  r_price : Z;
  r_mileage : Z;
  r_fuel : string;
  r_transmission : string;
  r_color : string;
  r_grade : string
}.

(** [self.ss.filters]; an unset selection is [""]. *)
Record filters := {
  f_make : string; f_model : string;
  f_year : Z * Z; f_mileage : Z * Z;
  f_fuel : string; f_transmission : string; f_color : string; f_grade : string
}.

(** The messages of the browsing handlers. *)
Inductive browse_message :=
| MsgNoDeals                         (* show deals: nothing matches *)
| MsgFoundDeals (n : nat)            (* show deals: n matches *)
| MsgManyOfMake (make : string)      (* search: make only *)
| MsgMoreInfo
| MsgNoSearchMatch
| MsgFoundSearch (n : nat)
| MsgNoMoreCars                      (* show next deal: exhausted *)
| MsgNoDealOnRecord                  (* request invoice: no deal *)
| MsgGreeting                        (* greeting *)
| MsgContactSupport                  (* contact support *)
| MsgOutsideExpertise.               (* unknown intent *)

(** The session keys read or written by the browsing handlers, beside the
    negotiation keys of [session].  Their messages are collected in
    [browse_history]. *)
Record agent := {
  ss : session;
  inventory_df : list row;
  budget : Z * Z;
  a_filters : filters;
  search_results : list row;
  search_results_index : nat;
  current_car_to_display : option row;
  browse_history : list browse_message;
  a_currency : string
}.

Definition with_results (a : agent) (res : list row) (idx : nat)
  (cur : option row) (h : list browse_message) (s : session) : agent :=
  {| ss := s; inventory_df := inventory_df a; budget := budget a;
     a_filters := a_filters a; search_results := res;
     search_results_index := idx; current_car_to_display := cur;
     browse_history := h; a_currency := a_currency a |}.

(** [Series.between(lo, hi)], inclusive on both ends. *)
Definition between (x : Z) (r : Z * Z) : bool :=
  (fst r <=? x) && (x <=? snd r).

(** [if key: results = results[results[col] == key]]: an empty selection
    does not filter. *)
Definition eq_filter (key v : string) : bool :=
  if String.eqb key ""%string then true else String.eqb v key.

(** The row mask of [_handle_show_deals]. *)
Definition deal_matches (bud : Z * Z) (f : filters) (r : row) : bool :=
  between (r_price r) bud && between (r_year r) (f_year f)
  && between (r_mileage r) (f_mileage f)
  && eq_filter (f_make f) (r_make r) && eq_filter (f_model f) (r_model r)
  && eq_filter (f_fuel f) (r_fuel r)
  && eq_filter (f_transmission f) (r_transmission r)
  && eq_filter (f_color f) (r_color r) && eq_filter (f_grade f) (r_grade r).

(** [_handle_show_next_deal()] *)
Definition handle_show_next_deal (a : agent) : agent :=
  let results := search_results a in
  let idx := search_results_index a in
  match nth_error results idx with
  | None =>
      with_results a results idx None (browse_history a ++ [MsgNoMoreCars]) (ss a)
  | Some car0 =>
      with_results a results (S idx) (Some car0) (browse_history a) (ss a)
  end.

(** [_handle_show_deals()] *)
Definition handle_show_deals (a : agent) : agent :=
  let s1 := set_negotiation_context (ss a) None in
  let s2 := {| history := history s1; negotiation_context := None;
               last_deal_context := last_deal_context s1;
               invoice_to_render := invoice_to_render s1;
               query_context := [] |} in
  let results := filter (deal_matches (budget a) (a_filters a)) (inventory_df a) in
  match results with
  | [] => with_results a (search_results a) (search_results_index a)
            (current_car_to_display a) (browse_history a ++ [MsgNoDeals]) s2
  | _ => handle_show_next_deal
           (with_results a results 0 (current_car_to_display a)
              (browse_history a ++ [MsgFoundDeals (length results)]) s2)
  end.

(** The search parameters [make, model, year, color]; a missing one is
    [None] (or [""] / [0], which Python also treats as unset). *)
Record search_params := {
  p_make : option string; p_model : option string;
  p_year : option Z; p_color : option string
}.

Definition str_truthy (o : option string) : bool :=
  match o with Some s => negb (String.eqb s ""%string) | None => false end.

Definition int_truthy (o : option Z) : bool :=
  match o with Some n => negb (Z.eqb n 0) | None => false end.

Definition opt_str_filter (o : option string) (v : string) : bool :=
  match o with
  | Some k => if String.eqb k ""%string then true else String.eqb v k
  | None => true
  end.

Definition opt_int_filter (o : option Z) (v : Z) : bool :=
  match o with
  | Some k => if Z.eqb k 0 then true else Z.eqb v k
  | None => true
  end.

Definition search_matches (p : search_params) (r : row) : bool :=
  opt_str_filter (p_make p) (r_make r) && opt_str_filter (p_model p) (r_model r)
  && opt_int_filter (p_year p) (r_year r) && opt_str_filter (p_color p) (r_color r).

(** [_handle_search_vehicle(params)] *)
Definition handle_search_vehicle (p : search_params) (a : agent) : agent :=
  let s1 := set_negotiation_context (ss a) None in
  if str_truthy (p_make p) && negb (str_truthy (p_model p))
     && negb (int_truthy (p_year p)) && negb (str_truthy (p_color p)) then
    let mk := match p_make p with Some m => m | None => ""%string end in
    with_results a (search_results a) (search_results_index a)
      (current_car_to_display a)
      (browse_history a ++ [MsgManyOfMake mk; MsgMoreInfo]) s1
  else
    let results := filter (search_matches p) (inventory_df a) in
    match results with
    | [] => with_results a (search_results a) (search_results_index a)
              (current_car_to_display a) (browse_history a ++ [MsgNoSearchMatch]) s1
    | _ => handle_show_next_deal
             (with_results a results 0 (current_car_to_display a)
                (browse_history a ++ [MsgFoundSearch (length results)]) s1)
    end.

(** [_handle_request_invoice()] *)
Definition handle_request_invoice (a : agent) : agent :=
  match last_deal_context (ss a) with
  | Some d =>
      let s := ss a in
      with_results a (search_results a) (search_results_index a)
        (current_car_to_display a) (browse_history a)
        {| history := history s; negotiation_context := negotiation_context s;
           last_deal_context := last_deal_context s; invoice_to_render := Some d;
           query_context := query_context s |}
  | None =>
      with_results a (search_results a) (search_results_index a)
        (current_car_to_display a) (browse_history a ++ [MsgNoDealOnRecord]) (ss a)
  end.

(** Two inventory rows and an agent browsing them, used by the examples. *)
Definition aqua : row :=
  {| r_id := "VID0000"; r_make := "Toyota"; r_model := "Aqua"; r_year := 2018;
     r_price := 850000; r_mileage := 40000; r_fuel := "Hybrid";
     r_transmission := "Automatic"; r_color := "Silver"; r_grade := "4.5" |}%string.

Definition fit : row :=
  {| r_id := "VID0002"; r_make := "Honda"; r_model := "Fit"; r_year := 2018;
     r_price := 800000; r_mileage := 60000; r_fuel := "Hybrid";
     r_transmission := "Automatic"; r_color := "Blue"; r_grade := "4" |}%string.

Definition no_filters : filters :=
  {| f_make := ""; f_model := ""; f_year := (2015, 2025); f_mileage := (5000, 150000);
     f_fuel := ""; f_transmission := ""; f_color := ""; f_grade := "" |}%string.

Definition sample_agent : agent :=
  {| ss := fresh 1000000; inventory_df := [aqua; fit]; budget := (500000, 15000000);
     a_filters := no_filters; search_results := []; search_results_index := 0;
     current_car_to_display := None; browse_history := [];
     a_currency := "JPY" |}.

(* ------------------------------------------------------------------ *)
(** ** src/app.py : reading the user's text ([_parse_intent]) and
    showing prices ([_format_price]) *)

(** Texts are modelled as lists of ASCII characters. *)
Definition text := list ascii.

Definition txt (s : string) : text := list_ascii_of_string s.

Definition code (c : ascii) : nat := nat_of_ascii c.

(** [\d] *)
Definition is_digit (c : ascii) : bool := (48 <=? code c)%nat && (code c <=? 57)%nat.

(** [str.isspace] / [\s] on ASCII: tab, line feed, vertical tab, form
    feed, carriage return, the separators 28-31 and space. *)
Definition is_space (c : ascii) : bool :=
  ((9 <=? code c)%nat && (code c <=? 13)%nat)
  || ((28 <=? code c)%nat && (code c <=? 32)%nat).

(** [str.lower] on ASCII. *)
Definition lower_char (c : ascii) : ascii :=
  if (65 <=? code c)%nat && (code c <=? 90)%nat then ascii_of_nat (code c + 32) else c.

Definition lower (t : text) : text := map lower_char t.

Fixpoint drop_spaces (t : text) : text :=
  match t with
  | c :: r => if is_space c then drop_spaces r else t
  | [] => []
  end.

(** [str.strip] *)
Definition strip (t : text) : text := rev (drop_spaces (rev (drop_spaces t))).

Fixpoint text_eqb (a b : text) : bool :=
  match a, b with
  | [], [] => true
  | c :: a', d :: b' => Ascii.eqb c d && text_eqb a' b'
  | _, _ => false
  end.

Fixpoint prefixb (w t : text) : bool :=
  match w, t with
  | [], _ => true
  | c :: w', d :: t' => Ascii.eqb c d && prefixb w' t'
  | _ :: _, [] => false
  end.

(** [w in t] for strings. *)
Fixpoint contains (t w : text) : bool :=
  prefixb w t || match t with [] => false | _ :: t' => contains t' w end.

(** [any(w in text for w in ws)] *)
Definition any_in (ws : list string) (t : text) : bool :=
  existsb (fun w => contains t (txt w)) ws.

(** [text in ws] *)
Definition one_of (t : text) (ws : list string) : bool :=
  existsb (fun w => text_eqb t (txt w)) ws.

Definition accept_words : list string := ["deal"; "yes"; "ok"; "i agree"; "accept"; "fine"]%string.
Definition reject_words : list string := ["no"; "pass"; "another"; "cancel"]%string.
Definition discount_words : list string := ["discount"; "best price"; "negotiate"]%string.

(** The character class [[\d,.]]. *)
Definition in_amount_class (c : ascii) : bool :=
  is_digit c || Ascii.eqb c ","%char || Ascii.eqb c "."%char.

Fixpoint span_amount (t : text) : text * text :=
  match t with
  | c :: r => if in_amount_class c then let (g, rest) := span_amount r in (c :: g, rest)
              else ([], t)
  | [] => ([], [])
  end.

(** The alternation [(m|k|lakh|l|million)], tried in order. *)
Definition match_suffix (t : text) : option string :=
  find (fun w => prefixb (txt w) t) ["m"; "k"; "lakh"; "l"; "million"]%string.

(** The search of _parse_intent for an amount: a digit, then the greedy
    class [[\d,.]] repeated, then [\s] repeated, then the optional suffix
    group.  The leftmost digit starts the match; both repetitions are
    greedy and never need to give back characters, since the suffix group
    is optional. *)
Fixpoint money_search (t : text) : option (text * option string) :=
  match t with
  | c :: r =>
      if is_digit c then
        let (g, rest) := span_amount r in Some (c :: g, match_suffix (drop_spaces rest))
      else money_search r
  | [] => None
  end.

(** [s.replace(",", "")] *)
Definition remove_commas (t : text) : text :=
  filter (fun c => negb (Ascii.eqb c ","%char)) t.

Definition digit_value (c : ascii) : Z := Z.of_nat (code c) - 48.

(** The integer written by a string of decimal digits. *)
Definition digits_value (t : text) : Z :=
  fold_left (fun acc c => acc * 10 + digit_value c) t 0.

Fixpoint break_at_dot (t : text) : text * text :=
  match t with
  | c :: r => if Ascii.eqb c "."%char then ([], t)
              else let (a, b) := break_at_dot r in (c :: a, b)
  | [] => ([], [])
  end.

(** [float(s)] on a string of digits and dots that starts with a digit:
    [ValueError] ([None]) when there are two dots or more.  The value is
    the exact decimal; the rounding of a fractional part to a double is
    not modelled. *)
Definition parse_float (t : text) : option Q :=
  match break_at_dot t with
  | (ip, []) => Some (inject_Z (digits_value ip))
  | (ip, _ :: fp) =>
      if existsb (fun c => Ascii.eqb c "."%char) fp then None
      else Some (inject_Z (digits_value ip) + (digits_value fp # Pos.of_nat (10 ^ length fp)))%Q
  end.

(** [CURRENCIES.get(currency, 1)]; the rates are the exact rationals the
    float literals denote. *)
Definition currency_rate (currency : string) : Q :=
  if String.eqb currency "USD" then 1 # 155
  else if String.eqb currency "PKR" then 100 # 55
  else 1.

(** [int(x)]: truncation towards zero. *)
Definition py_int (x : Q) : Z := Z.quot (Qnum x) (Zpos (Qden x)).

(** The suffix scaling of [_parse_intent]. *)
Definition scale_amount (val : Q) (suffix : option string) : Q :=
  if Qlt_le_dec val 1000 then
    match suffix with
    | Some s => if String.eqb s "m" || String.eqb s "million" then val * 1000000
                else if String.eqb s "k" then val * 1000
                else if String.eqb s "lakh" || String.eqb s "l" then val * 100000
                else val
    | None => val
    end
  else
    match suffix with
    | Some s => if String.eqb s "k" then val * 1000
                else if String.eqb s "lakh" || String.eqb s "l" then val * 100000
                else val
    | None => val
    end.

Inductive py_error := ValueError | TypeError.

Inductive result (A : Type) := Ok (a : A) | Raise (e : py_error).
Arguments Ok {A} a.
Arguments Raise {A} e.

(** The intents [_parse_intent] decides in its first lines; [IFurther]
    stands for every later line (invoice, deals, support, vehicle search),
    which reads the inventory and is not modelled. *)
Inductive intent :=
| IGreeting | IAcceptOffer | IRejectOffer | IDiscountInquiry
| INegotiate (amount : Z)
| IFurther.

(** Lines 136-149 of [_parse_intent]; [negotiating] is the truthiness of
    [self.ss.negotiation_context]. *)
Definition parse_intent_head (user_input : text) (negotiating : bool)
  (currency : string) : result intent :=
  let t := strip (lower user_input) in
  if one_of t ["hello"; "hi"; "hey"]%string then Ok IGreeting
  else if negotiating then
    if any_in accept_words t then Ok IAcceptOffer
    else if any_in reject_words t then Ok IRejectOffer
    else if any_in discount_words t then Ok IDiscountInquiry
    else match money_search t with
         | Some (g, suffix) =>
             match parse_float (remove_commas g) with
             | None => Raise ValueError
             | Some v => Ok (INegotiate (py_int (scale_amount v suffix / currency_rate currency)))
             end
         | None => Ok IFurther
         end
  else Ok IFurther.

(** Decimal digits of a non-negative integer, least significant first;
    [fuel] bounds the number of digits. *)
Fixpoint digits_rev (fuel : nat) (n : Z) : text :=
  let c := ascii_of_nat (48 + Z.to_nat (n mod 10)) in
  match fuel with
  | O => [c]
  | S f => if n <? 10 then [c] else c :: digits_rev f (n / 10)
  end.

Definition digit_fuel (n : Z) : nat := Z.to_nat (Z.log2 n + 1).

(** [str(n)] for [n >= 0]. *)
Definition decimal (n : Z) : text := rev (digits_rev (digit_fuel n) n).

(** A comma after every third digit from the right. *)
Fixpoint group3 (r : text) : text :=
  match r with
  | a :: b :: c :: ((_ :: _) as rest) => a :: b :: c :: ","%char :: group3 rest
  | _ => r
  end.

(** [f"{n:,}"] for an int. *)
Definition format_thousands (n : Z) : text :=
  if n <? 0 then "-"%char :: rev (group3 (digits_rev (digit_fuel (- n)) (- n)))
  else rev (group3 (digits_rev (digit_fuel n) n)).

(** [_format_price(price_base)]:
    [f"{currency} {int(price_base * rate):,}"]. *)
Definition format_price (currency : string) (price_base : Q) : text :=
  txt currency ++ " "%char :: format_thousands (py_int (price_base * currency_rate currency)).

(** A Python value passed as [offer_amount_base]. *)
Inductive pyvalue := PyInt (n : Z) | PyDict (kv : list (string * Z)).

(** [_handle_negotiation] on any value.  With a context, its body always
    evaluates a comparison of the value with a number first
    ([offer >= last_agent_offer] when there is a truthy agent offer,
    otherwise [offer >= price]); a dict there raises [TypeError]. *)
Definition handle_negotiation_value (v : pyvalue) (s : session) : result session :=
  match v with
  | PyInt n => Ok (handle_negotiation n s)
  | PyDict _ =>
      match negotiation_context s with
      | None => Ok s
      | Some _ => Raise TypeError
      end
  end.

Definition set_ss (a : agent) (s : session) : agent :=
  with_results a (search_results a) (search_results_index a)
    (current_car_to_display a) (browse_history a) s.

Definition negotiating (a : agent) : bool :=
  match negotiation_context (ss a) with Some _ => true | None => false end.

(** [respond(user_input)] for the intents decided by [parse_intent_head]:
    [handlers[intent]()], and [handler(params)] with the params dict
    [{"amount": n}] for a negotiation.  [None]: the intent is one of the
    others (greeting and lines 150-170), not modelled here.  The user
    message [respond] records first is not modelled. *)
Definition respond (user_input : text) (a : agent) : result (option agent) :=
  match parse_intent_head user_input (negotiating a) (a_currency a) with
  | Raise e => Raise e
  | Ok IAcceptOffer => Ok (Some (set_ss a (handle_accept_offer (ss a))))
  | Ok IRejectOffer => Ok (Some (handle_show_next_deal (set_ss a (handle_reject_offer (ss a)))))
  | Ok IDiscountInquiry => Ok (Some (set_ss a (handle_discount_inquiry (ss a))))
  | Ok (INegotiate n) =>
      match handle_negotiation_value (PyDict [("amount"%string, n)]) (ss a) with
      | Ok s => Ok (Some (set_ss a s))
      | Raise e => Raise e
      end
  | Ok IGreeting | Ok IFurther => Ok None
  end.

(** The make a search names: [make_match.group(1).replace('s', '').title()]. *)
Definition is_alpha (c : ascii) : bool :=
  ((65 <=? code c)%nat && (code c <=? 90)%nat) || ((97 <=? code c)%nat && (code c <=? 122)%nat).

(** [str.upper] on ASCII. *)
Definition upper_char (c : ascii) : ascii :=
  if (97 <=? code c)%nat && (code c <=? 122)%nat then ascii_of_nat (code c - 32) else c.

(** [str.title] on ASCII: a letter is upper-cased after a non-letter and
    lower-cased after a letter. *)
Fixpoint title_aux (prev_cased : bool) (t : text) : text :=
  match t with
  | [] => []
  | c :: r =>
      if is_alpha c then (if prev_cased then lower_char c else upper_char c) :: title_aux true r
      else c :: title_aux false r
  end.

Definition title (t : text) : text := title_aux false t.

(** [s.replace('s', '')] *)
Definition remove_s (t : text) : text := filter (fun c => negb (Ascii.eqb c "s"%char)) t.

Definition make_of_match (g : text) : text := title (remove_s g).

(* ------------------------------------------------------------------ *)
(** ** src/app.py : the chat as the page drives it *)

(** The "Negotiate" button of a car card: [agent.initiate_negotiation(car)],
    which also clears [current_car_to_display]. *)
Definition pick (c : car) (a : agent) : agent :=
  with_results a (search_results a) (search_results_index a) None (browse_history a)
    (initiate_negotiation c (ss a)).

(** [self.add_message("assistant", ...)] for the messages of the parts of
    [respond] after the negotiation intents. *)
Definition add_browse (a : agent) (m : browse_message) : agent :=
  with_results a (search_results a) (search_results_index a)
    (current_car_to_display a) (browse_history a ++ [m]) (ss a).

Definition set_query_context (s : session) (qc : list (string * string)) : session :=
  {| history := history s; negotiation_context := negotiation_context s;
     last_deal_context := last_deal_context s;
     invoice_to_render := invoice_to_render s; query_context := qc |}.

(** [agent.ss.pop("invoice_to_render")] when the invoice button is drawn. *)
Definition clear_invoice (s : session) : session :=
  {| history := history s; negotiation_context := negotiation_context s;
     last_deal_context := last_deal_context s;
     invoice_to_render := None; query_context := query_context s |}.

(** The sidebar widgets: budget, filters and display currency. *)
Definition set_profile (a : agent) (b : Z * Z) (f : filters) (cur : string) : agent :=
  {| ss := ss a; inventory_df := inventory_df a; budget := b; a_filters := f;
     search_results := search_results a; search_results_index := search_results_index a;
     current_car_to_display := current_car_to_display a;
     browse_history := browse_history a; a_currency := cur |}.

(** What [respond] may do with a message [_parse_intent] sends past the
    negotiation intents (lines 150-170 and 178-183): request an invoice,
    show deals, answer a support request, search (with [query_context]
    updated from the message, the search parameters read from it), or
    answer an unknown intent.  The parameters of a search are left open:
    every outcome of those lines is one of these. *)
Inductive further_outcome (a : agent) : agent -> Prop :=
| FInvoice : further_outcome a (handle_request_invoice a)
| FShowDeals : further_outcome a (handle_show_deals a)
| FContactSupport : further_outcome a (add_browse a MsgContactSupport)
| FSearch (p : search_params) (qc : list (string * string)) :
    further_outcome a (handle_search_vehicle p (set_ss a (set_query_context (ss a) qc)))
| FUnknown : further_outcome a (add_browse a MsgOutsideExpertise).

(** One rerun of the page once the chat has started: the "Like & Make
    Offer" button ([agent.initiate_negotiation(car)]); a chat message, a
    "Pass (Next Car)" press ([agent.respond("next car")]) or an "Apply
    Filters & Show Deals" press ([agent.respond("show deals")]), that is
    [respond] on some text, whatever intent it reads, including one that
    raises (the state is then left as it was: [respond] changes nothing
    before the exception, the user message apart); the sidebar widgets;
    and the invoice button popping [invoice_to_render]. *)
Inductive ui_step : agent -> agent -> Prop :=
| SPick (c : car) (a : agent) : ui_step a (pick c a)
| SSay (u : text) (a a' : agent) : respond u a = Ok (Some a') -> ui_step a a'
| SGreeting (u : text) (a : agent) :
    parse_intent_head u (negotiating a) (a_currency a) = Ok IGreeting ->
    ui_step a (add_browse a MsgGreeting)
| SFurther (u : text) (a a' : agent) :
    parse_intent_head u (negotiating a) (a_currency a) = Ok IFurther ->
    further_outcome a a' -> ui_step a a'
| SRaise (u : text) (a : agent) (e : py_error) : respond u a = Raise e -> ui_step a a
| SSidebar (a : agent) (b : Z * Z) (f : filters) (cur : string) :
    ui_step a (set_profile a b f cur)
| SInvoiceShown (a : agent) : ui_step a (set_ss a (clear_invoice (ss a))).

(** Any number of reruns. *)
Inductive ui_runs : agent -> agent -> Prop :=
| RunsDone (a : agent) : ui_runs a a
| RunsStep (a a1 a' : agent) : ui_step a a1 -> ui_runs a1 a' -> ui_runs a a'.

(* ------------------------------------------------------------------ *)
(** ** Vocabulary of the text proofs *)

Definition digit_or_comma (c : ascii) : bool := is_digit c || Ascii.eqb c ","%char.

(** The characters of a price shown in yen, after [lower]. *)
Definition price_char (c : ascii) : bool := digit_or_comma c || existsb (Ascii.eqb c) (txt "jpy ").

(** The characters of an amount with a [k], [m] or [lakh] suffix. *)
Definition amount_char (c : ascii) : bool := is_digit c || existsb (Ascii.eqb c) (txt " lakhm").

Definition dotted_char (c : ascii) : bool := is_digit c || Ascii.eqb c "."%char.

(** While the chat alone drives the session, an open negotiation has no
    final price, and every closed deal is at its listing price. *)
Definition chat_inv (s : session) : Prop :=
  (forall c, negotiation_context s = Some c -> final_price c = None) /\
  (forall d, last_deal_context s = Some d -> final_price d = Some (inject_Z (original_price d))).

(** Sample data for the examples of the chat. *)
Definition chat_start : agent :=
  {| ss := empty_session; inventory_df := [aqua; fit]; budget := (500000, 15000000);
     a_filters := no_filters; search_results := [aqua; fit]; search_results_index := 1;
     current_car_to_display := Some aqua; browse_history := [];
     a_currency := "JPY" |}.

Definition nissan_row : row :=
  {| r_id := "VID0009"; r_make := "Nissan"; r_model := "Note"; r_year := 2019;
     r_price := 700000; r_mileage := 50000; r_fuel := "Petrol";
     r_transmission := "Automatic"; r_color := "White"; r_grade := "4" |}%string.

(* ---- end of the browsing model ---- *)

(* ------------------------------------------------------------------ *)
(** ** Small checks of the embedding on the scenarios of the spec *)

Example fresh_offer_at_price :
  option_map final_price (negotiation_context (handle_negotiation 1000000 (fresh 1000000)))
  = Some (Some (inject_Z 1000000)).
Proof. reflexivity. Qed.

Example fresh_offer_950k :
  option_map last_agent_offer (negotiation_context (handle_negotiation 950000 (fresh 1000000)))
  = Some (Some (inject_Z 975000)).
Proof. reflexivity. Qed.

Example cif_1m_total :
  Qeq_bool (total_price (calculate_total_price (inject_Z 1000000) (Some "CIF"%string)))
           (inject_Z 1228750) = true.
Proof. reflexivity. Qed.

(* ------------------------------------------------------------------ *)
(** ** Price breakdown *)

(** C2 (counterexample): [calculate_total_price] does not fail on a zero or
    negative base price; it returns a breakdown, with total 50,000 for
    (0, FOB) and 203,647.5 for (-100, CIF). *)
Lemma C2_counterexample :
  total_price (calculate_total_price 0 (Some "FOB"%string)) == inject_Z 50000
  /\ total_price (calculate_total_price (inject_Z (-100)) (Some "CIF"%string))
     == (2036475 # 10).
Proof. split; reflexivity. Qed.

(** C2 (amended): for every base price, zero and negative included, and
    every incoterm, [calculate_total_price] returns a breakdown that keeps
    the base price and whose total is the sum of its four components; there
    is no validation and no error. *)
Theorem C2_no_validation (b : Q) (option : option string) :
  base_price (calculate_total_price b option) = b
  /\ total_price (calculate_total_price b option)
     == base_price (calculate_total_price b option)
        + domestic_transport (calculate_total_price b option)
        + freight_cost (calculate_total_price b option)
        + insurance (calculate_total_price b option).
Proof.
  split; [reflexivity|]. unfold calculate_total_price; simpl. ring.
Qed.

(** C8: with incoterm CIF the insurance is [INSURANCE_RATE * (base_price +
    FREIGHT_COST)] for every base price (so for every positive one); with
    the configured constants, a base price of 1,000,000 gives insurance
    28,750 and total 1,228,750. *)
Theorem C8_cif_insurance_on_cost_and_freight :
  (forall b : Q,
     insurance (calculate_total_price b (Some "CIF"%string))
     == INSURANCE_RATE * (b + FREIGHT_COST))
  /\ insurance (calculate_total_price (inject_Z 1000000) (Some "CIF"%string))
     == inject_Z 28750
  /\ total_price (calculate_total_price (inject_Z 1000000) (Some "CIF"%string))
     == inject_Z 1228750.
Proof.
  split; [|split; reflexivity].
  intros b. unfold calculate_total_price; simpl. ring.
Qed.

(** C9: for an incoterm outside FOB, C&F, CIF (None or any other string)
    the function returns a breakdown with zero domestic transport, freight
    and insurance, and a total equal to the base price. *)
Theorem C9_unknown_incoterm (b : Q) (option : option string)
  (Hout : in_list option ["FOB"; "C&F"; "CIF"]%string = false) :
  domestic_transport (calculate_total_price b option) = 0%Q
  /\ freight_cost (calculate_total_price b option) = 0%Q
  /\ insurance (calculate_total_price b option) = 0%Q
  /\ total_price (calculate_total_price b option) == b.
Proof.
  assert (Hc : option_eq option "CIF" = false).
  { destruct option as [o|]; [|reflexivity]. simpl in *.
    destruct (String.eqb o "CIF") eqn:E; [|reflexivity].
    apply String.eqb_eq in E; subst; discriminate. }
  assert (Hcf : in_list option ["C&F"; "CIF"]%string = false).
  { destruct option as [o|]; [|reflexivity]. simpl in *.
    apply orb_false_iff in Hout as [_ Hout]. exact Hout. }
  unfold calculate_total_price. rewrite Hout, Hcf, Hc. simpl.
  repeat split. ring.
Qed.

Lemma C9_witness :
  in_list (Some "DDP"%string) ["FOB"; "C&F"; "CIF"]%string = false
  /\ total_price (calculate_total_price (inject_Z 1000000) (Some "DDP"%string))
     == inject_Z 1000000.
Proof.
  split; [reflexivity|].
  apply (C9_unknown_incoterm (inject_Z 1000000) (Some "DDP"%string)).
  reflexivity.
Defined.

(* ------------------------------------------------------------------ *)
(** ** Negotiation: single transitions *)

(** C1 (counterexample): [accept()] on a fresh session (state initial, no
    final price) closes a deal at the listed price of 1,000,000. *)
Lemma C1_counterexample :
  let s := handle_accept_offer (fresh 1000000) in
  negotiation_context s = None
  /\ option_map final_price (last_deal_context s) = Some (Some (inject_Z 1000000))
  /\ last_message s = MsgDealConfirmed (inject_Z 1000000).
Proof. repeat split. Qed.

Lemma step_eqb_Initial (st : step) : step_eqb st Initial = true <-> st = Initial.
Proof. destruct st; simpl; split; congruence. Qed.

Lemma accept_closes_intro (s : session) (c : ctx) (p : Q) :
  negotiation_context s = Some c ->
  (if negb (truthy (final_price c)) && step_eqb (ctx_step c) Initial
   then Some (inject_Z (original_price c)) else final_price c) = Some p ->
  ~ (p == 0)%Q -> accept_closes s c p.
Proof.
  intros Hctx Hp Hq. unfold accept_closes, handle_accept_offer, last_message.
  rewrite Hctx, Hp.
  replace (Qeq_bool p 0) with false
    by (symmetry; apply not_true_iff_false; intros E; apply Hq, Qeq_bool_eq, E).
  simpl. rewrite last_last. repeat split.
Qed.

(** C1 (amended): what [accept()] does, in every case.
    - With no session it only asks to select a car first.
    - On a session whose final price is unset or 0 and whose step is
      initial, with a non-zero original price, it confirms the deal at the
      original price.
    - On a session whose final price is unset or 0, when the step is not
      initial or the original price is 0, it only adds the prompt asking
      what final price is being agreed.
    - On a session with a non-zero final price it confirms the deal at
      that price. *)
Theorem C1_accept_cases (s : session) :
  (negotiation_context s = None -> handle_accept_offer s = add_message s MsgSelectCarFirst)
  /\ (forall c, negotiation_context s = Some c -> truthy (final_price c) = false ->
        ctx_step c = Initial -> original_price c <> 0 ->
        accept_closes s c (inject_Z (original_price c)))
  /\ (forall c, negotiation_context s = Some c -> truthy (final_price c) = false ->
        ctx_step c <> Initial \/ original_price c = 0 ->
        handle_accept_offer s = add_message s MsgWhatFinalPrice)
  /\ (forall c q, negotiation_context s = Some c -> final_price c = Some q -> ~ (q == 0)%Q ->
        accept_closes s c q).
Proof.
  split; [|split; [|split]].
  - intros H; unfold handle_accept_offer; rewrite H; reflexivity.
  - intros c Hctx Hfp Hst Hp. apply (accept_closes_intro s c); [exact Hctx| |].
    + rewrite Hfp, Hst; reflexivity.
    + unfold Qeq; simpl; lia.
  - intros c Hctx Hfp Hcase. unfold handle_accept_offer; rewrite Hctx, Hfp. simpl negb.
    destruct (step_eqb (ctx_step c) Initial) eqn:Est; simpl andb; cbv iota.
    + apply step_eqb_Initial in Est.
      destruct Hcase as [Hst|Hz]; [contradiction|]. rewrite Hz; reflexivity.
    + unfold truthy in Hfp. destruct (final_price c) as [q|]; [|reflexivity].
      apply negb_false_iff in Hfp; rewrite Hfp; reflexivity.
  - intros c q Hctx Hfp Hq. apply (accept_closes_intro s c); [exact Hctx| |exact Hq].
    rewrite Hfp. unfold truthy.
    replace (Qeq_bool q 0) with false
      by (symmetry; apply not_true_iff_false; intros E; apply Hq, Qeq_bool_eq, E).
    reflexivity.
Qed.

Lemma C1_witness :
  let c := {| ctx_car := toyota 1000000; original_price := 1000000;
              floor_price := (inject_Z 1000000 * (1 - NEGOTIATION_MAX_DISCOUNT))%Q;
              ctx_step := Initial; last_agent_offer := None;
              final_price := None |} in
  accept_closes (fresh 1000000) c (inject_Z 1000000)
  /\ handle_accept_offer (handle_negotiation 900 (fresh 1000))
     = add_message (handle_negotiation 900 (fresh 1000)) MsgWhatFinalPrice.
Proof.
  intros c. split.
  - exact (proj1 (proj2 (C1_accept_cases (fresh 1000000))) c eq_refl eq_refl eq_refl
             ltac:(discriminate)).
  - destruct (negotiation_context (handle_negotiation 900 (fresh 1000))) as [c1|] eqn:E1;
      [|vm_compute in E1; discriminate E1].
    apply (proj1 (proj2 (proj2 (C1_accept_cases (handle_negotiation 900 (fresh 1000))))) c1 E1).
    + vm_compute in E1. injection E1 as <-. vm_compute. reflexivity.
    + left. vm_compute in E1. injection E1 as <-. discriminate.
Defined.

(** C3 (counterexample): on a fresh session listed at 1,000,000 an offer of
    800,000 (below the floor 880,000) sets [final_price] and moves the
    session to countered. *)
Lemma C3_counterexample :
  let s := handle_negotiation 800000 (fresh 1000000) in
  option_map ctx_step (negotiation_context s) = Some Countered
  /\ option_map final_price (negotiation_context s) = Some (Some (88000000 # 100)).
Proof. split; reflexivity. Qed.

(** C3 (amended): when the last agent offer does not already cover the
    amount, an offer below both [floor_price] and [original_price] is
    answered with [floor_price] as the best price, and [floor_price] is
    recorded as the agent's counter-offer: [final_price] and
    [last_agent_offer] become [floor_price], the step becomes countered,
    and the session stays open. *)
Theorem C3_below_floor_counters_at_floor (s : session) (c : ctx) (amount : Z)
  (Hctx : negotiation_context s = Some c)
  (Hr1 : rule1_fires c amount = false)
  (Hp : amount < original_price c)
  (Hfl : (inject_Z amount < floor_price c)%Q) :
  let s' := handle_negotiation amount s in
  negotiation_context s'
  = Some (ctx_update c (Some (floor_price c)) Countered (Some (floor_price c)))
  /\ last_message s' = MsgAbsoluteBest (floor_price c)
  /\ last_deal_context s' = last_deal_context s.
Proof.
  unfold handle_negotiation, last_message. rewrite Hctx, Hr1.
  destruct (original_price c <=? amount) eqn:E; [apply Z.leb_le in E; lia|].
  destruct (Qle_bool (floor_price c) (inject_Z amount)) eqn:F.
  { apply Qle_bool_iff in F. exfalso. apply (Qlt_not_le _ _ Hfl F). }
  simpl. rewrite last_last. repeat split.
Qed.

Lemma C3_witness :
  option_map final_price (negotiation_context (handle_negotiation 800000 (fresh 1000000)))
  = Some (Some (inject_Z 1000000 * (1 - NEGOTIATION_MAX_DISCOUNT))%Q).
Proof.
  destruct (C3_below_floor_counters_at_floor (fresh 1000000)
    {| ctx_car := toyota 1000000; original_price := 1000000;
       floor_price := (inject_Z 1000000 * (1 - NEGOTIATION_MAX_DISCOUNT))%Q;
       ctx_step := Initial; last_agent_offer := None; final_price := None |}
    800000) as [H _];
    [reflexivity | reflexivity | simpl; lia | unfold Qlt; simpl; lia | ].
  rewrite H. reflexivity.
Defined.

(** C4 (failing input): listed at 1,000,000, a fresh session offered
    999,500 (between floor and listed price, no prior agent offer): the
    midpoint 999,000 is not above the offer, the bump then gives 1,019,000,
    above the original price, recorded as counter-offer and final price. *)
Theorem C4_counter_overshoots_original_price :
  counter_offer 999500 1000000 = 1019000
  /\ 1000000 < counter_offer 999500 1000000
  /\ option_map last_agent_offer
       (negotiation_context (handle_negotiation 999500 (fresh 1000000)))
     = Some (Some (inject_Z 1019000))
  /\ option_map final_price
       (negotiation_context (handle_negotiation 999500 (fresh 1000000)))
     = Some (Some (inject_Z 1019000)).
Proof. repeat split; reflexivity. Qed.

(** C7 (failing input): listed at 1,000, an offer of 900 (above the floor
    880) gets the counter-offer 0, and the session is countered with
    [last_agent_offer = 0]; offering 900 again, at least that counter, is
    not accepted but countered again, because 0 is falsy in the rule-1
    test. *)
Theorem C7_zero_counter_not_accepted :
  let s1 := handle_negotiation 900 (fresh 1000) in
  let s2 := handle_negotiation 900 s1 in
  option_map ctx_step (negotiation_context s1) = Some Countered
  /\ option_map last_agent_offer (negotiation_context s1) = Some (Some (inject_Z 0))
  /\ option_map ctx_step (negotiation_context s2) = Some Countered
  /\ option_map final_price (negotiation_context s2) = Some (Some (inject_Z 0)).
Proof. repeat split; reflexivity. Qed.

(** The rule-1 acceptance does hold whenever the recorded agent offer is
    non-zero. *)
Lemma rule1_accepts_nonzero (s : session) (c : ctx) (x : Q) (amount : Z)
  (Hctx : negotiation_context s = Some c)
  (Hlao : last_agent_offer c = Some x)
  (Hx : ~ x == 0)
  (Ha : (x <= inject_Z amount)%Q) :
  negotiation_context (handle_negotiation amount s)
  = Some (ctx_update c (Some (inject_Z amount)) Accepted (Some x)).
Proof.
  unfold handle_negotiation. rewrite Hctx.
  assert (Hr : rule1_fires c amount = true).
  { unfold rule1_fires. rewrite Hlao.
    destruct (Qeq_bool x 0) eqn:E.
    - apply Qeq_bool_eq in E. contradiction.
    - simpl. apply Qle_bool_iff. exact Ha. }
  rewrite Hr. simpl. rewrite Hlao. reflexivity.
Qed.

(** C10: after a discount inquiry on an active session without a final
    price, the session is countered with the opening discount price as last
    agent offer and still no final price; [accept()] then only asks which
    final price is agreed, leaving the session open and no deal recorded. *)
Theorem C10_accept_after_discount_prompts (s : session) (c : ctx)
  (Hctx : negotiation_context s = Some c)
  (Hfp : final_price c = None) :
  let opening := Z.quot (original_price c * 97) 100000 * 1000 in
  let s1 := handle_discount_inquiry s in
  let s2 := handle_accept_offer s1 in
  negotiation_context s1
  = Some (ctx_update c None Countered (Some (inject_Z opening)))
  /\ last_message s2 = MsgWhatFinalPrice
  /\ negotiation_context s2 = negotiation_context s1
  /\ last_deal_context s2 = last_deal_context s
  /\ invoice_to_render s2 = invoice_to_render s.
Proof.
  unfold handle_discount_inquiry, handle_accept_offer, last_message.
  rewrite Hctx. simpl. rewrite Hfp. simpl. rewrite last_last.
  repeat split.
Qed.

Lemma C10_witness :
  last_message (handle_accept_offer (handle_discount_inquiry (fresh 1000000)))
  = MsgWhatFinalPrice.
Proof.
  destruct (C10_accept_after_discount_prompts (fresh 1000000)
    {| ctx_car := toyota 1000000; original_price := 1000000;
       floor_price := (inject_Z 1000000 * (1 - NEGOTIATION_MAX_DISCOUNT))%Q;
       ctx_step := Initial; last_agent_offer := None; final_price := None |})
    as [_ [H _]]; [reflexivity | reflexivity | exact H].
Defined.

(* ------------------------------------------------------------------ *)
(** ** Negotiation: monotonicity in the offered amount *)

Lemma rule1_fires_mono (c : ctx) (a1 a2 : Z) :
  a1 < a2 -> rule1_fires c a1 = true -> rule1_fires c a2 = true.
Proof.
  unfold rule1_fires. destruct (last_agent_offer c) as [x|]; [|discriminate].
  intros Hlt H. apply andb_true_iff in H as [Hz Hle].
  rewrite Hz. simpl. apply Qle_bool_iff in Hle. apply Qle_bool_iff.
  apply (Qle_trans _ _ _ Hle). rewrite <- Zle_Qle. lia.
Qed.

Lemma Qle_bool_inject_mono (q : Q) (a1 a2 : Z) :
  a1 < a2 -> Qle_bool q (inject_Z a1) = true -> Qle_bool q (inject_Z a2) = true.
Proof.
  intros Hlt H. apply Qle_bool_iff in H. apply Qle_bool_iff.
  apply (Qle_trans _ _ _ H). rewrite <- Zle_Qle. lia.
Qed.

(** The answer [handle_negotiation] appends on an active session. *)
Lemma handle_negotiation_history (s : session) (c : ctx) (a : Z) :
  negotiation_context s = Some c ->
  last_message (handle_negotiation a s)
  = if rule1_fires c a then MsgFantasticOffer a
    else if original_price c <=? a then MsgAskingPrice (original_price c)
    else if Qle_bool (floor_price c) (inject_Z a)
         then MsgStrongOffer (counter_offer a (original_price c))
         else MsgAbsoluteBest (floor_price c).
Proof.
  intros Hctx. unfold handle_negotiation, last_message. rewrite Hctx.
  destruct (rule1_fires c a); [simpl; apply last_last|].
  destruct (original_price c <=? a); [simpl; apply last_last|].
  destruct (Qle_bool (floor_price c) (inject_Z a)); simpl; apply last_last.
Qed.

(** C6: on a fixed active session, a strictly higher offer never gets a
    weaker answer: rejection with the floor price < counter-offer <
    acceptance is non-decreasing in the amount offered. *)
Theorem C6_outcome_monotone (s : session) (c : ctx) (a1 a2 : Z)
  (Hctx : negotiation_context s = Some c)
  (Hlt : a1 < a2) :
  (outcome_rank (last_message (handle_negotiation a1 s))
   <= outcome_rank (last_message (handle_negotiation a2 s)))%nat.
Proof.
  rewrite !(handle_negotiation_history s c _ Hctx).
  pose proof (rule1_fires_mono c a1 a2 Hlt) as M1.
  pose proof (Qle_bool_inject_mono (floor_price c) a1 a2 Hlt) as M3.
  assert (M2 : (original_price c <=? a1) = true -> (original_price c <=? a2) = true).
  { rewrite !Z.leb_le. lia. }
  destruct (rule1_fires c a1), (rule1_fires c a2),
    (original_price c <=? a1), (original_price c <=? a2),
    (Qle_bool (floor_price c) (inject_Z a1)), (Qle_bool (floor_price c) (inject_Z a2));
    simpl; try lia;
    first [ discriminate (M1 eq_refl) | discriminate (M2 eq_refl)
          | discriminate (M3 eq_refl) ].
Qed.

Lemma C6_witness :
  (outcome_rank (last_message (handle_negotiation 800000 (fresh 1000000)))
   <= outcome_rank (last_message (handle_negotiation 950000 (fresh 1000000))))%nat.
Proof.
  apply (C6_outcome_monotone (fresh 1000000)
    {| ctx_car := toyota 1000000; original_price := 1000000;
       floor_price := (inject_Z 1000000 * (1 - NEGOTIATION_MAX_DISCOUNT))%Q;
       ctx_step := Initial; last_agent_offer := None; final_price := None |});
    [reflexivity | lia].
Defined.

(* ------------------------------------------------------------------ *)
(** ** Negotiation: the floor price *)

(** A context whose recorded agent offer and final price are not below its
    floor price, for a listing of at least 100,000. *)
Definition ctx_inv (c : ctx) : Prop :=
  100000 <= original_price c
  /\ floor_price c = (inject_Z (original_price c) * (1 - NEGOTIATION_MAX_DISCOUNT))%Q
  /\ (forall x, last_agent_offer c = Some x -> (floor_price c <= x)%Q)
  /\ (forall x, final_price c = Some x -> (floor_price c <= x)%Q).

Definition opt_inv (o : option ctx) : Prop := forall c, o = Some c -> ctx_inv c.

Definition session_inv (s : session) : Prop :=
  opt_inv (negotiation_context s) /\ opt_inv (last_deal_context s)
  /\ opt_inv (invoice_to_render s).

(** Every vehicle put under negotiation is listed at 100,000 or more. *)
Definition listings_ok (cms : list command) : Prop :=
  Forall (fun cm => match cm with
                    | CInitiate v => 100000 <= price v
                    | _ => True
                    end) cms.

Lemma floor_le_inject (p x : Z) :
  (inject_Z p * (1 - NEGOTIATION_MAX_DISCOUNT) <= inject_Z x)%Q <-> 88 * p <= 100 * x.
Proof.
  unfold Qle, NEGOTIATION_MAX_DISCOUNT, Qminus, Qmult, Qplus, Qopp, inject_Z.
  cbn [Qnum Qden]. change (Z.pos (1 * (1 * 100))) with 100.
  change (1 * 100 + - (12) * 1) with 88. lia.
Qed.

Lemma quot_lower (n d : Z) : 0 <= n -> 0 < d -> n - d < Z.quot n d * d.
Proof.
  intros Hn Hd. rewrite Z.quot_div_nonneg by lia.
  pose proof (Z.div_mod n d ltac:(lia)). pose proof (Z.mod_pos_bound n d Hd). lia.
Qed.

Lemma counter_offer_above_floor (a p : Z) :
  100000 <= p -> 88 * p <= 100 * a -> a < p ->
  88 * p <= 100 * counter_offer a p.
Proof.
  intros Hp Ha Hap. unfold counter_offer.
  pose proof (quot_lower (a + p) 2000 ltac:(lia) ltac:(lia)) as Q0.
  pose proof (quot_lower (p * 98) 100000 ltac:(lia) ltac:(lia)) as Q1.
  pose proof (quot_lower (a * 102) 100000 ltac:(lia) ltac:(lia)) as Q2.
  destruct (p <=? Z.quot (a + p) 2000 * 1000);
    [ destruct (Z.quot (p * 98) 100000 * 1000 <=? a)
    | destruct (Z.quot (a + p) 2000 * 1000 <=? a) ]; lia.
Qed.

Lemma opening_discount_above_floor (p : Z) :
  100000 <= p -> 88 * p <= 100 * (Z.quot (p * 97) 100000 * 1000).
Proof.
  intros Hp. pose proof (quot_lower (p * 97) 100000 ltac:(lia) ltac:(lia)). lia.
Qed.

Lemma ctx_inv_intro (c : ctx) :
  100000 <= original_price c ->
  floor_price c = (inject_Z (original_price c) * (1 - NEGOTIATION_MAX_DISCOUNT))%Q ->
  (forall x, last_agent_offer c = Some x -> (floor_price c <= x)%Q) ->
  (forall x, final_price c = Some x -> (floor_price c <= x)%Q) ->
  ctx_inv c.
Proof. intros; repeat split; assumption. Qed.

(** Updating a context that satisfies the invariant keeps it, when the
    newly written prices are at or above its floor. *)
Lemma ctx_update_inv (c : ctx) (fp : option Q) (st : step) (lao : option Q) :
  ctx_inv c ->
  (forall x, lao = Some x -> (floor_price c <= x)%Q) ->
  (forall x, fp = Some x -> (floor_price c <= x)%Q) ->
  opt_inv (Some (ctx_update c fp st lao)).
Proof.
  intros [Hp [Hf _]] Hl Hfp c' E. injection E as <-.
  apply ctx_inv_intro; simpl; assumption.
Qed.

Lemma add_message_inv (s : session) (m : message) :
  session_inv s -> session_inv (add_message s m).
Proof. intros H; exact H. Qed.

Lemma exec_inv (cm : command) (s : session) :
  match cm with CInitiate v => 100000 <= price v | _ => True end ->
  session_inv s -> session_inv (exec cm s).
Proof.
  intros Hcm Hs. pose proof Hs as [Hn [Hl Hi]].
  destruct cm as [v| |a| |]; simpl.
  - (* initiate_negotiation *)
    refine (conj _ (conj Hl Hi)). intros c E. injection E as <-.
    apply ctx_inv_intro; simpl; try assumption; try reflexivity;
      intros x E; discriminate.
  - (* _handle_discount_inquiry *)
    unfold handle_discount_inquiry.
    destruct (negotiation_context s) as [c|] eqn:E; [|exact (add_message_inv s _ Hs)].
    pose proof (Hn c eq_refl) as Hc. destruct Hc as [Hp [Hf [Hlao Hfp]]].
    refine (conj _ (conj Hl Hi)).
    apply (ctx_update_inv c); [exact (Hn c eq_refl) | | exact Hfp].
    intros x Ex. injection Ex as <-. rewrite Hf. apply floor_le_inject.
    apply opening_discount_above_floor; assumption.
  - (* _handle_negotiation *)
    unfold handle_negotiation.
    destruct (negotiation_context s) as [c|] eqn:E; [|exact Hs].
    pose proof (Hn c eq_refl) as Hc. destruct Hc as [Hp [Hf [Hlao Hfp]]].
    destruct (rule1_fires c a) eqn:R1; [|destruct (original_price c <=? a) eqn:P;
      [|destruct (Qle_bool (floor_price c) (inject_Z a)) eqn:F]];
      refine (conj _ (conj Hl Hi)); apply (ctx_update_inv c);
      try exact (Hn c eq_refl); try exact Hlao; intros x Ex; injection Ex as <-.
    + unfold rule1_fires in R1. destruct (last_agent_offer c) as [y|]; [|discriminate].
      apply andb_true_iff in R1 as [_ R1]. apply Qle_bool_iff in R1.
      apply (Qle_trans _ _ _ (Hlao y eq_refl) R1).
    + rewrite Hf. apply floor_le_inject. apply Z.leb_le in P. lia.
    + rewrite Hf. apply floor_le_inject. apply counter_offer_above_floor; try assumption.
      * apply floor_le_inject. rewrite <- Hf. apply Qle_bool_iff. exact F.
      * apply Z.leb_gt. exact P.
    + rewrite Hf. apply floor_le_inject. apply counter_offer_above_floor; try assumption.
      * apply floor_le_inject. rewrite <- Hf. apply Qle_bool_iff. exact F.
      * apply Z.leb_gt. exact P.
    + apply Qle_refl.
    + apply Qle_refl.
  - (* _handle_accept_offer *)
    unfold handle_accept_offer.
    destruct (negotiation_context s) as [c|] eqn:E; [|exact (add_message_inv s _ Hs)].
    pose proof (Hn c eq_refl) as Hc. destruct Hc as [Hp [Hf [Hlao Hfp]]].
    assert (Hpta : forall x,
      (if negb (truthy (final_price c)) && step_eqb (ctx_step c) Initial
       then Some (inject_Z (original_price c)) else final_price c) = Some x ->
      (floor_price c <= x)%Q).
    { intros x. destruct (negb _ && _); [|apply Hfp].
      intros Ex. injection Ex as <-. rewrite Hf. apply floor_le_inject. lia. }
    destruct (if negb (truthy (final_price c)) && step_eqb (ctx_step c) Initial
              then Some (inject_Z (original_price c)) else final_price c)
      as [x|]; [|exact (add_message_inv s _ Hs)].
    destruct (negb (Qeq_bool x 0)); [|exact (add_message_inv s _ Hs)].
    assert (Hx : opt_inv (Some (ctx_update c (Some x) (ctx_step c) (last_agent_offer c)))).
    { apply (ctx_update_inv c); [exact (Hn c eq_refl) | exact Hlao |].
      intros y Ey. injection Ey as <-. apply Hpta. reflexivity. }
    refine (conj _ (conj Hx Hx)). intros c' E'. discriminate.
  - (* _handle_reject_offer *)
    refine (conj _ (conj Hl Hi)). intros c E. discriminate.
Qed.

Lemma run_inv (cms : list command) (s : session) :
  listings_ok cms -> session_inv s -> session_inv (run cms s).
Proof.
  revert s. induction cms as [|cm rest IH]; intros s Hok Hs; [exact Hs|].
  inversion Hok as [|? ? Hcm Hrest]; subst. simpl.
  apply IH; [exact Hrest|]. apply exec_inv; assumption.
Qed.

(** C5 (counterexample): listed at 1,500 (floor 1,320), the discount
    inquiry quotes 1,000, and the offer 1,000 is then accepted with final
    price 1,000, below the floor. *)
Lemma C5_counterexample :
  let s := run [CDiscount; COffer 1000] (fresh 1500) in
  option_map final_price (negotiation_context s) = Some (Some (inject_Z 1000))
  /\ option_map ctx_step (negotiation_context s) = Some Accepted
  /\ option_map floor_price (negotiation_context s) = Some (inject_Z 1500 * (1 - NEGOTIATION_MAX_DISCOUNT))%Q
  /\ (inject_Z 1000 < inject_Z 1500 * (1 - NEGOTIATION_MAX_DISCOUNT))%Q.
Proof. repeat split; reflexivity. Qed.

(** C5 (amended): when every vehicle put under negotiation is listed at
    100,000 or more, then along any sequence of [initiate_negotiation],
    discount inquiries, offers, accepts and rejects from an empty session,
    every agent offer recorded (opening discount, counter-offer, floor
    quote) and every final price, in the open negotiation, in the last deal
    and in the invoice, is at least the context's [floor_price]
    [= original_price * (1 - 0.12)]. *)
Theorem C5_floor_respected (cms : list command)
  (Hok : listings_ok cms) :
  session_inv (run cms empty_session).
Proof.
  apply run_inv; [exact Hok|].
  split; [|split]; intros c E; discriminate.
Qed.

Lemma C5_witness :
  session_inv (run [CInitiate (toyota 1000000); COffer 950000; CDiscount;
                    COffer 900000; COffer 970000; CAccept] empty_session).
Proof.
  apply C5_floor_respected.
  repeat constructor; simpl; lia.
Defined.

(* ------------------------------------------------------------------ *)
(** ** Browsing: paging through results *)

Lemma show_next_deal_step (a : agent) (car0 : row) :
  nth_error (search_results a) (search_results_index a) = Some car0 ->
  search_results (handle_show_next_deal a) = search_results a
  /\ search_results_index (handle_show_next_deal a) = S (search_results_index a)
  /\ current_car_to_display (handle_show_next_deal a) = Some car0.
Proof. intros E. unfold handle_show_next_deal. rewrite E. repeat split. Qed.

(** Starting from position 0, the n-th call of [_handle_show_next_deal]
    (n at most the number of results) displays the n-th result and leaves
    the position at n: the results are shown in order, each once. *)
Theorem show_next_deal_pages_in_order (a : agent) (n : nat)
  (H0 : search_results_index a = 0%nat)
  (Hn : (1 <= n <= length (search_results a))%nat) :
  current_car_to_display (Nat.iter n handle_show_next_deal a)
  = nth_error (search_results a) (n - 1)
  /\ search_results_index (Nat.iter n handle_show_next_deal a) = n
  /\ search_results (Nat.iter n handle_show_next_deal a) = search_results a.
Proof.
  assert (Gen : forall k, (k <= length (search_results a))%nat ->
    search_results_index (Nat.iter k handle_show_next_deal a) = k
    /\ search_results (Nat.iter k handle_show_next_deal a) = search_results a
    /\ (1 <= k -> current_car_to_display (Nat.iter k handle_show_next_deal a)
                  = nth_error (search_results a) (k - 1))%nat).
  { induction k as [|k IH]; intros Hk.
    - repeat split; [exact H0 | intros; lia].
    - destruct IH as [Ik [Rk _]]; [lia|].
      destruct (nth_error (search_results a) k) as [r|] eqn:E.
      2:{ apply nth_error_None in E. lia. }
      assert (E' : nth_error (search_results (Nat.iter k handle_show_next_deal a))
                     (search_results_index (Nat.iter k handle_show_next_deal a)) = Some r)
        by (rewrite Rk, Ik; exact E).
      simpl. destruct (show_next_deal_step _ r E') as [R1 [I1 C1]].
      rewrite R1, I1, C1, Ik, Rk. repeat split.
      intros _. simpl. rewrite Nat.sub_0_r. symmetry. exact E. }
  destruct (Gen n (proj2 Hn)) as [I [R C]]. repeat split; auto.
  apply C. lia.
Qed.

Lemma show_next_deal_pages_in_order_witness :
  current_car_to_display
    (Nat.iter 2 handle_show_next_deal
       (with_results sample_agent [aqua; fit] 0 None [] (ss sample_agent)))
  = Some fit.
Proof.
  destruct (show_next_deal_pages_in_order
    (with_results sample_agent [aqua; fit] 0 None [] (ss sample_agent)) 2)
    as [C _]; [reflexivity | simpl; lia | exact C].
Defined.

(* ------------------------------------------------------------------ *)
(** ** Browsing: deals and searches *)

(** When some inventory row matches, [_handle_show_deals] replaces the
    results by exactly the inventory rows within the budget, year and
    mileage ranges that agree with every set filter, displays the first of
    them, and ends any negotiation. *)
Theorem show_deals_results (a : agent) (r0 : row) (rest : list row)
  (Hne : filter (deal_matches (budget a) (a_filters a)) (inventory_df a) = r0 :: rest) :
  (forall r, In r (search_results (handle_show_deals a))
             <-> In r (inventory_df a) /\ deal_matches (budget a) (a_filters a) r = true)
  /\ current_car_to_display (handle_show_deals a) = Some r0
  /\ search_results_index (handle_show_deals a) = 1%nat
  /\ negotiation_context (ss (handle_show_deals a)) = None.
Proof.
  unfold handle_show_deals. rewrite Hne.
  unfold handle_show_next_deal. simpl.
  split; [|repeat split].
  intros r. rewrite <- filter_In, Hne. reflexivity.
Qed.

Lemma show_deals_results_witness :
  current_car_to_display (handle_show_deals sample_agent) = Some aqua.
Proof.
  destruct (show_deals_results sample_agent aqua [fit]) as [_ [C _]];
    [reflexivity | exact C].
Defined.

(** A search that runs (it names more than a make alone) and finds some
    inventory row, whatever was displayed before, replaces the results by
    exactly the inventory rows agreeing with every given make, model, year
    and colour, displays the first of them, sets the position to 1 and ends
    any negotiation. *)
Theorem search_results_match (a : agent) (p : search_params) (r0 : row) (rest : list row)
  (Hruns : negb (str_truthy (p_make p)) || str_truthy (p_model p)
           || int_truthy (p_year p) || str_truthy (p_color p) = true)
  (Hne : filter (search_matches p) (inventory_df a) = r0 :: rest) :
  current_car_to_display (handle_search_vehicle p a) = Some r0
  /\ In r0 (inventory_df a) /\ search_matches p r0 = true
  /\ (forall x, In x (search_results (handle_search_vehicle p a))
                <-> In x (inventory_df a) /\ search_matches p x = true)
  /\ search_results_index (handle_search_vehicle p a) = 1%nat
  /\ negotiation_context (ss (handle_search_vehicle p a)) = None.
Proof.
  unfold handle_search_vehicle.
  replace (str_truthy (p_make p) && negb (str_truthy (p_model p))
           && negb (int_truthy (p_year p)) && negb (str_truthy (p_color p))) with false
    by (destruct (str_truthy (p_make p)), (str_truthy (p_model p)),
                 (int_truthy (p_year p)), (str_truthy (p_color p));
        simpl in Hruns |- *; congruence).
  rewrite Hne. unfold handle_show_next_deal. simpl.
  assert (Hin : forall x, In x (r0 :: rest) <-> In x (inventory_df a) /\ search_matches p x = true)
    by (intros x; rewrite <- filter_In, Hne; reflexivity).
  destruct (proj1 (Hin r0) (or_introl eq_refl)) as [I M].
  split; [reflexivity|]. split; [exact I|]. split; [exact M|].
  split; [exact Hin | split; reflexivity].
Qed.

Lemma search_results_match_witness :
  current_car_to_display
    (handle_search_vehicle
       {| p_make := Some "Honda"%string; p_model := Some "Fit"%string; p_year := None; p_color := None |}
       (with_results sample_agent [aqua] 1 (Some aqua) [] (ss sample_agent)))
  = Some fit.
Proof.
  destruct (search_results_match (with_results sample_agent [aqua] 1 (Some aqua) [] (ss sample_agent))
    {| p_make := Some "Honda"%string; p_model := Some "Fit"%string; p_year := None; p_color := None |}
    fit []) as [C _]; [reflexivity | reflexivity | exact C].
Defined.

(* ------------------------------------------------------------------ *)
(** ** The deal on record and the invoice *)

Lemma exec_keeps_last_deal (cm : command) (s : session) :
  cm <> CAccept -> last_deal_context (exec cm s) = last_deal_context s.
Proof.
  intros Hcm. destruct cm; simpl; try reflexivity; [| |contradiction].
  - unfold handle_discount_inquiry. destruct (negotiation_context s); reflexivity.
  - unfold handle_negotiation. destruct (negotiation_context s) as [c|]; [|reflexivity].
    destruct (rule1_fires c amount); [reflexivity|].
    destruct (original_price c <=? amount); [reflexivity|].
    destruct (Qle_bool (floor_price c) (inject_Z amount)); reflexivity.
Qed.

(** The deal on record is only ever replaced by a successful [accept()]:
    after any sequence of negotiations, offers, discount inquiries and
    rejections without an accept, [_handle_request_invoice] renders the
    same deal as before, with its final price. *)
Theorem last_deal_survives_and_is_invoiced (cms : list command) (s : agent) (d : ctx)
  (Hd : last_deal_context (ss s) = Some d)
  (Hno : Forall (fun cm => cm <> CAccept) cms) :
  let s' := with_results s (search_results s) (search_results_index s)
              (current_car_to_display s) (browse_history s) (run cms (ss s)) in
  last_deal_context (ss s') = Some d
  /\ invoice_to_render (ss (handle_request_invoice s')) = Some d.
Proof.
  assert (Hrun : forall cs t, Forall (fun cm => cm <> CAccept) cs ->
            last_deal_context (run cs t) = last_deal_context t).
  { induction cs as [|cm cs IH]; intros t Hf; [reflexivity|].
    inversion Hf as [|? ? Hc Hcs]; subst. simpl.
    rewrite IH by exact Hcs. apply exec_keeps_last_deal, Hc. }
  simpl. rewrite Hrun by exact Hno. split; [exact Hd|].
  unfold handle_request_invoice. simpl. rewrite Hrun by exact Hno. rewrite Hd.
  reflexivity.
Qed.

Lemma last_deal_survives_and_is_invoiced_witness :
  let a := with_results sample_agent [] 0 None [] (handle_accept_offer (fresh 1000000)) in
  option_map final_price
    (invoice_to_render (ss (handle_request_invoice
       (with_results a [] 0 None [] (run [CReject; CInitiate (toyota 500000); COffer 400000] (ss a))))))
  = Some (Some (inject_Z 1000000)).
Proof.
  intros a.
  destruct (last_deal_survives_and_is_invoiced
    [CReject; CInitiate (toyota 500000); COffer 400000] a
    (ctx_update {| ctx_car := toyota 1000000; original_price := 1000000;
       floor_price := (inject_Z 1000000 * (1 - NEGOTIATION_MAX_DISCOUNT))%Q;
       ctx_step := Initial; last_agent_offer := None; final_price := None |}
       (Some (inject_Z 1000000)) Initial None)) as [_ H];
    [reflexivity | repeat constructor; discriminate | ].
  exact (f_equal (option_map final_price) H).
Defined.

(* ------------------------------------------------------------------ *)
(** ** Reading and answering chat messages *)

Section TextClass.

Variable allowed : ascii -> bool.

Lemma prefixb_allowed (w t : text) :
  prefixb w t = true -> forallb allowed t = true -> forallb allowed w = true.
Proof.
  revert t; induction w as [|c w IH]; intros [|d t] Hp Ht; try reflexivity; try discriminate.
  simpl in Hp, Ht |- *. apply andb_true_iff in Hp as [Hcd Hp].
  apply andb_true_iff in Ht as [Hd Ht].
  apply Ascii.eqb_eq in Hcd; subst d. rewrite Hd. exact (IH t Hp Ht).
Qed.

Lemma contains_allowed (t w : text) :
  forallb allowed t = true -> forallb allowed w = false -> contains t w = false.
Proof.
  intros Ht Hw. induction t as [|c t IH].
  - destruct w as [|d w]; [discriminate|reflexivity].
  - simpl. apply orb_false_iff; split.
    + destruct (prefixb w (c :: t)) eqn:Hp; [|reflexivity].
      rewrite (prefixb_allowed w (c :: t) Hp Ht) in Hw; discriminate.
    + simpl in Ht; apply andb_true_iff in Ht as [_ Ht]; exact (IH Ht).
Qed.

Lemma any_in_allowed (ws : list string) (t : text) :
  forallb allowed t = true ->
  forallb (fun w => negb (forallb allowed (txt w))) ws = true ->
  any_in ws t = false.
Proof.
  intros Ht Hws; unfold any_in; induction ws as [|w ws IH]; [reflexivity|].
  simpl in Hws |- *; apply andb_true_iff in Hws as [Hw Hws].
  rewrite contains_allowed by (exact Ht || now apply negb_true_iff). exact (IH Hws).
Qed.

Lemma text_eqb_eq (a b : text) : text_eqb a b = true -> a = b.
Proof.
  revert b; induction a as [|c a IH]; intros [|d b] H; try reflexivity; try discriminate.
  simpl in H; apply andb_true_iff in H as [Hc H].
  apply Ascii.eqb_eq in Hc; subst d; f_equal; exact (IH b H).
Qed.

Lemma one_of_allowed (t : text) (ws : list string) :
  forallb allowed t = true ->
  forallb (fun w => negb (forallb allowed (txt w))) ws = true ->
  one_of t ws = false.
Proof.
  intros Ht Hws; unfold one_of; induction ws as [|w ws IH]; [reflexivity|].
  simpl in Hws |- *; apply andb_true_iff in Hws as [Hw Hws].
  destruct (text_eqb t (txt w)) eqn:E.
  - apply text_eqb_eq in E; subst t; rewrite Ht in Hw; discriminate.
  - exact (IH Hws).
Qed.

End TextClass.

Lemma one_of_in (t : text) (ws : list string) :
  one_of t ws = true -> exists w, In w ws /\ t = txt w.
Proof.
  unfold one_of; intros H; apply existsb_exists in H as [w [Hin Hw]].
  exists w; split; [exact Hin | exact (text_eqb_eq _ _ Hw)].
Qed.

(** Characters *)

Lemma digit_char (k : nat) : (k < 10)%nat ->
  is_digit (ascii_of_nat (48 + k)) = true /\ digit_value (ascii_of_nat (48 + k)) = Z.of_nat k.
Proof.
  intros Hk; unfold is_digit, digit_value, code.
  rewrite nat_ascii_embedding by lia. split.
  - apply andb_true_iff; split; apply Nat.leb_le; lia.
  - lia.
Qed.

Lemma digit_not_space (c : ascii) : is_digit c = true -> is_space c = false.
Proof.
  unfold is_digit, is_space; intros H; apply andb_true_iff in H as [H1 H2].
  apply Nat.leb_le in H1, H2.
  apply orb_false_iff; split; apply andb_false_iff; right; apply Nat.leb_gt; lia.
Qed.

Lemma digit_not_comma (c : ascii) : is_digit c = true -> Ascii.eqb c ","%char = false.
Proof. intros H; destruct (Ascii.eqb_spec c ","%char); [subst; discriminate | reflexivity]. Qed.

Lemma digit_not_dot (c : ascii) : is_digit c = true -> Ascii.eqb c "."%char = false.
Proof. intros H; destruct (Ascii.eqb_spec c "."%char); [subst; discriminate | reflexivity]. Qed.

Lemma lower_char_digit (c : ascii) : is_digit c = true -> lower_char c = c.
Proof.
  unfold is_digit, lower_char; intros H; apply andb_true_iff in H as [_ H2].
  apply Nat.leb_le in H2.
  replace ((65 <=? code c)%nat) with false by (symmetry; apply Nat.leb_gt; lia).
  reflexivity.
Qed.

(** Numerals *)

Lemma digits_value_snoc (l : text) (c : ascii) :
  digits_value (l ++ [c]) = digits_value l * 10 + digit_value c.
Proof. unfold digits_value; rewrite fold_left_app; reflexivity. Qed.

Lemma digits_rev_ok (fuel : nat) (n : Z) :
  0 <= n -> n < 10 ^ (Z.of_nat fuel + 1) ->
  forallb is_digit (digits_rev fuel n) = true /\
  digits_value (rev (digits_rev fuel n)) = n /\ digits_rev fuel n <> [].
Proof.
  revert n; induction fuel as [|f IH]; intros n Hn Hlt.
  - assert (Hm : (Z.to_nat (n mod 10) < 10)%nat) by (rewrite Z.mod_small by (simpl in Hlt; lia); lia).
    destruct (digit_char _ Hm) as [Hd Hv].
    simpl in Hlt. cbn [digits_rev rev app forallb]. rewrite Hd.
    split; [reflexivity|]. split; [|discriminate].
    unfold digits_value; cbn [fold_left].
    rewrite Hv, Z2Nat.id by (apply Z.mod_pos_bound; lia).
    rewrite Z.mod_small; lia.
  - assert (Hm : (Z.to_nat (n mod 10) < 10)%nat)
      by (pose proof (Z.mod_pos_bound n 10 ltac:(lia)); lia).
    destruct (digit_char _ Hm) as [Hd Hv].
    cbn [digits_rev].
    destruct (n <? 10) eqn:E.
    + apply Z.ltb_lt in E. cbn [rev app forallb]. rewrite Hd.
      split; [reflexivity|]. split; [|discriminate].
      unfold digits_value; cbn [fold_left].
      rewrite Hv, Z2Nat.id by (apply Z.mod_pos_bound; lia).
      rewrite Z.mod_small; lia.
    + apply Z.ltb_ge in E.
      assert (Hq : n / 10 < 10 ^ (Z.of_nat f + 1)).
      { apply Z.div_lt_upper_bound; [lia|].
        replace (Z.of_nat (S f) + 1) with (Z.of_nat f + 1 + 1) in Hlt by lia.
        rewrite Z.pow_add_r in Hlt by lia. lia. }
      assert (Hq0 : 0 <= n / 10) by (apply Z.div_pos; lia).
      destruct (IH (n / 10) Hq0 Hq) as [Ha [Hb _]].
      cbn [forallb rev]. rewrite Hd, Ha. split; [reflexivity|]. split; [|discriminate].
      rewrite digits_value_snoc, Hb, Hv, Z2Nat.id by (apply Z.mod_pos_bound; lia).
      pose proof (Z.div_mod n 10 ltac:(lia)). lia.
Qed.

Lemma digit_fuel_ok (n : Z) : 0 <= n -> n < 10 ^ (Z.of_nat (digit_fuel n) + 1).
Proof.
  intros Hn. unfold digit_fuel.
  pose proof (Z.log2_nonneg n).
  rewrite Z2Nat.id by lia.
  assert (H2 : n < 2 ^ (Z.log2 n + 1)).
  { destruct (Z.eq_dec n 0) as [->|Hne]; [reflexivity|].
    rewrite Z.add_1_r; apply Z.log2_spec; lia. }
  assert (H3 : 2 ^ (Z.log2 n + 1) <= 10 ^ (Z.log2 n + 1)) by (apply Z.pow_le_mono_l; lia).
  assert (H4 : 10 ^ (Z.log2 n + 1) < 10 ^ (Z.log2 n + 1 + 1)) by (apply Z.pow_lt_mono_r; lia).
  lia.
Qed.

Lemma decimal_ok (n : Z) : 0 <= n ->
  forallb is_digit (decimal n) = true /\ digits_value (decimal n) = n /\ decimal n <> [].
Proof.
  intros Hn; destruct (digits_rev_ok (digit_fuel n) n Hn (digit_fuel_ok n Hn)) as [Ha [Hb Hc]].
  unfold decimal; split; [|split; [exact Hb|]].
  - apply forallb_forall; intros c Hin; apply in_rev in Hin.
    exact (proj1 (forallb_forall _ _) Ha c Hin).
  - intros E; apply Hc. rewrite <- (rev_involutive (digits_rev _ _)), E; reflexivity.
Qed.

Lemma remove_commas_digits (D : text) : forallb is_digit D = true -> remove_commas D = D.
Proof.
  induction D as [|c D IH]; intros H; [reflexivity|].
  simpl in H; apply andb_true_iff in H as [Hc H].
  unfold remove_commas; simpl; rewrite digit_not_comma by exact Hc; simpl.
  f_equal; exact (IH H).
Qed.

Lemma remove_commas_comma (t : text) : remove_commas (","%char :: t) = remove_commas t.
Proof. reflexivity. Qed.

Lemma remove_commas_digit (c : ascii) (t : text) :
  is_digit c = true -> remove_commas (c :: t) = c :: remove_commas t.
Proof. intros H; unfold remove_commas; simpl; rewrite digit_not_comma by exact H; reflexivity. Qed.

Lemma group3_ok (n : nat) (r : text) : (length r <= n)%nat ->
  forallb is_digit r = true ->
  remove_commas (group3 r) = r /\ forallb digit_or_comma (group3 r) = true /\
  firstn 1 (group3 r) = firstn 1 r.
Proof.
  revert r; induction n as [|n IH]; intros r Hl Hr.
  - destruct r; [split; [reflexivity|split; reflexivity] | simpl in Hl; lia].
  - destruct r as [|a [|b [|c [|x rest]]]];
      try (split; [apply remove_commas_digits; exact Hr|split; [|reflexivity]];
           apply forallb_forall; intros y Hy; unfold digit_or_comma;
           rewrite (proj1 (forallb_forall _ _) Hr y Hy); reflexivity).
    change (group3 (a :: b :: c :: x :: rest)) with (a :: b :: c :: ","%char :: group3 (x :: rest)).
    simpl in Hr.
    apply andb_true_iff in Hr as [Ha Hr]; apply andb_true_iff in Hr as [Hb Hr];
      apply andb_true_iff in Hr as [Hc Hr].
    destruct (IH (x :: rest) ltac:(simpl in Hl |- *; lia) Hr) as [R1 [R2 _]].
    split; [|split; [|reflexivity]].
    + rewrite !remove_commas_digit, remove_commas_comma, R1 by assumption. reflexivity.
    + cbn [forallb]. unfold digit_or_comma at 1 2 3. rewrite Ha, Hb, Hc, R2. reflexivity.
Qed.

Lemma span_amount_app (D S : text) :
  forallb in_amount_class D = true ->
  match S with [] => True | c :: _ => in_amount_class c = false end ->
  span_amount (D ++ S) = (D, S).
Proof.
  intros HD HS; induction D as [|c D IH].
  - destruct S as [|c S]; [reflexivity|]. simpl; rewrite HS; reflexivity.
  - simpl in HD |- *; apply andb_true_iff in HD as [Hc HD]. rewrite Hc, (IH HD). reflexivity.
Qed.

Lemma money_search_skip (c : ascii) (t : text) :
  is_digit c = false -> money_search (c :: t) = money_search t.
Proof. intros H; simpl; rewrite H; reflexivity. Qed.

Lemma money_search_digit (c : ascii) (D S : text) :
  is_digit c = true -> forallb in_amount_class D = true ->
  match S with [] => True | d :: _ => in_amount_class d = false end ->
  money_search (c :: D ++ S) = Some (c :: D, match_suffix (drop_spaces S)).
Proof. intros Hc HD HS; simpl; rewrite Hc, (span_amount_app D S HD HS); reflexivity. Qed.

Lemma digit_or_comma_class (D : text) :
  forallb digit_or_comma D = true -> forallb in_amount_class D = true.
Proof.
  intros H; apply forallb_forall; intros c Hin.
  pose proof (proj1 (forallb_forall _ _) H c Hin) as Hc.
  unfold digit_or_comma in Hc; unfold in_amount_class. rewrite Hc; reflexivity.
Qed.

Lemma money_search_grouped (D S : text) :
  forallb digit_or_comma D = true -> existsb is_digit D = true ->
  match S with [] => True | d :: _ => in_amount_class d = false end ->
  exists g, money_search (D ++ S) = Some (g, match_suffix (drop_spaces S)) /\
            remove_commas g = remove_commas D.
Proof.
  intros HD He HS; induction D as [|c D IH]; [discriminate|].
  simpl in HD, He; apply andb_true_iff in HD as [Hc HD].
  destruct (is_digit c) eqn:Hd.
  - exists (c :: D); split; [|reflexivity].
    apply money_search_digit; [exact Hd | apply digit_or_comma_class; exact HD | exact HS].
  - unfold digit_or_comma in Hc; rewrite Hd in Hc; apply Ascii.eqb_eq in Hc; subst c.
    destruct (IH HD He) as [g [Hg Hr]]. exists g; split.
    + rewrite <- app_comm_cons, money_search_skip by exact Hd; exact Hg.
    + rewrite Hr; reflexivity.
Qed.

Lemma break_no_dot (t : text) :
  forallb (fun c => negb (Ascii.eqb c "."%char)) t = true -> break_at_dot t = (t, []).
Proof.
  induction t as [|c t IH]; intros H; [reflexivity|].
  simpl in H |- *; apply andb_true_iff in H as [Hc H].
  apply negb_true_iff in Hc; rewrite Hc, (IH H); reflexivity.
Qed.

Lemma digits_no_dot (t : text) :
  forallb is_digit t = true -> forallb (fun c => negb (Ascii.eqb c "."%char)) t = true.
Proof.
  intros H; apply forallb_forall; intros c Hin.
  rewrite digit_not_dot by exact (proj1 (forallb_forall _ _) H c Hin); reflexivity.
Qed.

Lemma parse_float_digits (t : text) :
  forallb is_digit t = true -> parse_float t = Some (inject_Z (digits_value t)).
Proof. intros H; unfold parse_float; rewrite break_no_dot by (apply digits_no_dot; exact H); reflexivity. Qed.

Lemma parse_float_two_dots (D1 D2 D3 : text) :
  forallb is_digit D1 = true ->
  parse_float (D1 ++ "."%char :: D2 ++ "."%char :: D3) = None.
Proof.
  intros H1; unfold parse_float.
  assert (E : break_at_dot (D1 ++ "."%char :: D2 ++ "."%char :: D3)
              = (D1, "."%char :: D2 ++ "."%char :: D3)).
  { pose proof (digits_no_dot D1 H1) as H; clear H1; induction D1 as [|c D1 IH]; [reflexivity|].
    simpl in H |- *; apply andb_true_iff in H as [Hc H].
    apply negb_true_iff in Hc; rewrite Hc, (IH H); reflexivity. }
  rewrite E. rewrite existsb_app. simpl. rewrite orb_true_r. reflexivity.
Qed.

Lemma strip_id (t : text) :
  forallb (fun c => negb (is_space c)) (firstn 1 t) = true ->
  forallb (fun c => negb (is_space c)) (firstn 1 (rev t)) = true ->
  strip t = t.
Proof.
  unfold strip; intros H1 H2.
  destruct t as [|c r]; [reflexivity|].
  simpl in H1; apply andb_true_iff in H1 as [H1 _]; apply negb_true_iff in H1.
  cbn [drop_spaces]; rewrite H1.
  destruct (rev (c :: r)) as [|d r'] eqn:E.
  - simpl in E; apply app_eq_nil in E as [_ E]; discriminate.
  - simpl in H2; apply andb_true_iff in H2 as [H2 _]; apply negb_true_iff in H2.
    cbn [drop_spaces]; rewrite H2, <- E, rev_involutive; reflexivity.
Qed.

Lemma firstn1_app {A} (l m : list A) : l <> [] -> firstn 1 (l ++ m) = firstn 1 l.
Proof. destruct l; [contradiction|reflexivity]. Qed.

Lemma firstn1_digit (l : text) :
  forallb is_digit l = true -> forallb (fun c => negb (is_space c)) (firstn 1 l) = true.
Proof.
  destruct l as [|c l]; [reflexivity|]; simpl; intros H; apply andb_true_iff in H as [H _].
  rewrite digit_not_space by exact H; reflexivity.
Qed.

Lemma lower_digit_or_comma (D : text) : forallb digit_or_comma D = true -> lower D = D.
Proof.
  induction D as [|c D IH]; intros H; [reflexivity|].
  simpl in H; apply andb_true_iff in H as [Hc H]; unfold lower in *; simpl.
  rewrite (IH H); f_equal.
  unfold digit_or_comma in Hc; apply orb_true_iff in Hc as [Hc|Hc].
  - exact (lower_char_digit c Hc).
  - apply Ascii.eqb_eq in Hc; subst c; reflexivity.
Qed.

Lemma py_int_Z (n : Z) : py_int (inject_Z n) = n.
Proof. unfold py_int; simpl; apply Z.quot_1_r. Qed.

Lemma forallb_rev' {A} (f : A -> bool) (l : list A) : forallb f (rev l) = forallb f l.
Proof.
  induction l as [|x l IH]; [reflexivity|].
  simpl; rewrite forallb_app, IH; simpl; rewrite andb_true_r, andb_comm; reflexivity.
Qed.

Lemma forallb_impl {A} (f g : A -> bool) (l : list A) :
  (forall x, f x = true -> g x = true) -> forallb f l = true -> forallb g l = true.
Proof.
  intros Hfg H; apply forallb_forall; intros x Hx; apply Hfg.
  exact (proj1 (forallb_forall _ _) H x Hx).
Qed.

Lemma price_text_intent (n : Z) : 0 <= n ->
  parse_intent_head (format_price "JPY" (inject_Z n)) true "JPY" = Ok (INegotiate n).
Proof.
  intros Hn.
  destruct (digits_rev_ok (digit_fuel n) n Hn (digit_fuel_ok n Hn)) as [Hd [Hv Hne]].
  set (r := digits_rev (digit_fuel n) n) in *.
  destruct (group3_ok (length r) r (le_n _) Hd) as [G1 [G2 G3]].
  set (D := rev (group3 r)).
  assert (HD : forallb digit_or_comma D = true) by (unfold D; rewrite forallb_rev'; exact G2).
  assert (Hg3 : group3 r <> []).
  { intros E; rewrite E in G3; destruct r; [contradiction | discriminate]. }
  assert (Hex : existsb is_digit D = true).
  { destruct r as [|c r'] eqn:Er; [contradiction|].
    apply existsb_exists; exists c; split.
    - unfold D; apply in_rev; rewrite rev_involutive.
      assert (Hin : In c (remove_commas (group3 (c :: r')))) by (rewrite G1; left; reflexivity).
      unfold remove_commas in Hin; apply filter_In in Hin; exact (proj1 Hin).
    - simpl in Hd; apply andb_true_iff in Hd; exact (proj1 Hd). }
  assert (Hfmt : format_price "JPY" (inject_Z n) = txt "JPY " ++ D).
  { unfold format_price.
    assert (E : py_int (inject_Z n * currency_rate "JPY") = n)
      by (unfold py_int; simpl; rewrite Z.mul_1_r; apply Z.quot_1_r).
    rewrite E; unfold format_thousands.
    replace (n <? 0) with false by (symmetry; apply Z.ltb_ge; lia). reflexivity. }
  assert (Hlow : lower (txt "JPY " ++ D) = txt "jpy " ++ D).
  { unfold lower at 1; rewrite map_app; change (map lower_char D) with (lower D).
    rewrite (lower_digit_or_comma D HD); reflexivity. }
  assert (Hstrip : strip (txt "jpy " ++ D) = txt "jpy " ++ D).
  { apply strip_id; [reflexivity|].
    rewrite rev_app_distr; unfold D; rewrite rev_involutive, firstn1_app by exact Hg3.
    rewrite G3; apply firstn1_digit; exact Hd. }
  assert (Hall : forallb price_char (txt "jpy " ++ D) = true).
  { rewrite forallb_app; apply andb_true_iff; split; [reflexivity|].
    refine (forallb_impl _ _ _ _ HD); intros c Hc; unfold price_char; rewrite Hc; reflexivity. }
  destruct (money_search_grouped D [] HD Hex I) as [g [Hg Hrc]].
  rewrite app_nil_r in Hg.
  assert (Hrc' : remove_commas g = rev r).
  { rewrite Hrc; unfold D, remove_commas; rewrite filter_rev; fold (remove_commas (group3 r)).
    rewrite G1; reflexivity. }
  unfold parse_intent_head. rewrite Hfmt, Hlow, Hstrip.
  rewrite (one_of_allowed price_char _ _ Hall) by reflexivity.
  rewrite (any_in_allowed price_char accept_words _ Hall) by reflexivity.
  rewrite (any_in_allowed price_char reject_words _ Hall) by reflexivity.
  rewrite (any_in_allowed price_char discount_words _ Hall) by reflexivity.
  change (txt "jpy " ++ D) with ("j"%char :: "p"%char :: "y"%char :: " "%char :: D).
  rewrite !money_search_skip by reflexivity. rewrite Hg, Hrc'.
  rewrite parse_float_digits by (rewrite forallb_rev'; exact Hd).
  rewrite Hv. change (match_suffix (drop_spaces [])) with (@None string).
  unfold scale_amount; destruct (Qlt_le_dec (inject_Z n) 1000);
    unfold py_int; simpl; rewrite Z.mul_1_r, Z.quot_1_r; reflexivity.
Qed.

Lemma map_lower_digits (D : text) : forallb is_digit D = true -> map lower_char D = D.
Proof.
  induction D as [|c D IH]; intros H; [reflexivity|].
  simpl in H |- *; apply andb_true_iff in H as [Hc H].
  rewrite lower_char_digit, IH by assumption; reflexivity.
Qed.

Lemma filter_all {A} (f : A -> bool) (l : list A) : forallb f l = true -> filter f l = l.
Proof.
  induction l as [|x l IH]; intros H; [reflexivity|].
  simpl in H |- *; apply andb_true_iff in H as [Hx H]; rewrite Hx, IH by exact H; reflexivity.
Qed.

Lemma firstn1_rev_app {A} (l m : list A) : m <> [] -> firstn 1 (rev (l ++ m)) = firstn 1 (rev m).
Proof.
  intros Hm; rewrite rev_app_distr; apply firstn1_app.
  intros E; apply Hm; rewrite <- (rev_involutive m), E; reflexivity.
Qed.

Lemma decimal_cons (n : Z) : 0 <= n ->
  exists c D, decimal n = c :: D /\ is_digit c = true /\ forallb is_digit D = true.
Proof.
  intros Hn; destruct (decimal_ok n Hn) as [Hd [_ Hne]].
  destruct (decimal n) as [|c D]; [contradiction|].
  simpl in Hd; apply andb_true_iff in Hd as [Hc HD]; exists c, D; auto.
Qed.

Lemma digits_class (D : text) : forallb is_digit D = true -> forallb in_amount_class D = true.
Proof. apply forallb_impl; intros c Hc; unfold in_amount_class; rewrite Hc; reflexivity. Qed.

Lemma amount_text_intent (n : Z) (S : text) (cur : string) :
  0 <= n ->
  match S with [] => False | d :: _ => in_amount_class d = false end ->
  forallb amount_char S = true ->
  forallb (fun c => negb (is_space c)) (firstn 1 (rev S)) = true ->
  map lower_char S = S ->
  parse_intent_head (decimal n ++ S) true cur
  = Ok (INegotiate (py_int (scale_amount (inject_Z n) (match_suffix (drop_spaces S))
                            / currency_rate cur))).
Proof.
  intros Hn HS Hch Hsp Hlo.
  destruct (decimal_ok n Hn) as [Hd [Hv Hne]].
  destruct (decimal_cons n Hn) as [c [D [Ed [Hc HD]]]].
  assert (HS0 : S <> []) by (destruct S; [contradiction | discriminate]).
  assert (Hlow : lower (decimal n ++ S) = decimal n ++ S)
    by (unfold lower; rewrite map_app, map_lower_digits, Hlo by exact Hd; reflexivity).
  assert (Hstrip : strip (decimal n ++ S) = decimal n ++ S).
  { apply strip_id.
    - rewrite firstn1_app by exact Hne; apply firstn1_digit; exact Hd.
    - rewrite firstn1_rev_app by exact HS0; exact Hsp. }
  assert (Hall : forallb amount_char (decimal n ++ S) = true).
  { rewrite forallb_app, Hch, andb_true_r.
    refine (forallb_impl _ _ _ _ Hd); intros x Hx; unfold amount_char; rewrite Hx; reflexivity. }
  unfold parse_intent_head. rewrite Hlow, Hstrip.
  rewrite (one_of_allowed amount_char _ _ Hall) by reflexivity.
  rewrite (any_in_allowed amount_char accept_words _ Hall) by reflexivity.
  rewrite (any_in_allowed amount_char reject_words _ Hall) by reflexivity.
  rewrite (any_in_allowed amount_char discount_words _ Hall) by reflexivity.
  rewrite Ed, <- app_comm_cons, money_search_digit
    by (exact Hc || exact (digits_class D HD) || (destruct S; [contradiction | exact HS])).
  rewrite remove_commas_digit, remove_commas_digits by assumption.
  rewrite <- Ed, parse_float_digits, Hv by exact Hd. reflexivity.
Qed.

Lemma scale_k (n : Z) : py_int (scale_amount (inject_Z n) (Some "k"%string) / currency_rate "JPY") = n * 1000.
Proof.
  unfold scale_amount; destruct (Qlt_le_dec (inject_Z n) 1000);
    unfold py_int; simpl; rewrite Z.mul_1_r, Z.quot_1_r; reflexivity.
Qed.

Lemma scale_lakh (n : Z) :
  py_int (scale_amount (inject_Z n) (Some "lakh"%string) / currency_rate "JPY") = n * 100000.
Proof.
  unfold scale_amount; destruct (Qlt_le_dec (inject_Z n) 1000);
    unfold py_int; simpl; rewrite Z.mul_1_r, Z.quot_1_r; reflexivity.
Qed.

Lemma scale_m (n : Z) :
  py_int (scale_amount (inject_Z n) (Some "m"%string) / currency_rate "JPY")
  = if n <? 1000 then n * 1000000 else n.
Proof.
  unfold scale_amount; destruct (Qlt_le_dec (inject_Z n) 1000) as [H|H].
  - change 1000%Q with (inject_Z 1000) in H; rewrite <- Zlt_Qlt in H.
    replace (n <? 1000) with true by (symmetry; apply Z.ltb_lt; exact H).
    unfold py_int; simpl; rewrite Z.mul_1_r, Z.quot_1_r; reflexivity.
  - change 1000%Q with (inject_Z 1000) in H; rewrite <- Zle_Qle in H.
    replace (n <? 1000) with false by (symmetry; apply Z.ltb_ge; exact H).
    unfold py_int; simpl; rewrite Z.mul_1_r, Z.quot_1_r; reflexivity.
Qed.

(** An amount typed while negotiating (in yen) is scaled by its suffix:
    [k] always multiplies by 1,000 and [lakh] by 100,000, while [m]
    multiplies by 1,000,000 only below 1,000 and is ignored from 1,000 on. *)
Theorem amount_suffix_scaling (n : Z) (Hn : 0 <= n < 2 ^ 30) :
  parse_intent_head (decimal n ++ txt "k") true "JPY" = Ok (INegotiate (n * 1000)) /\
  parse_intent_head (decimal n ++ txt " lakh") true "JPY" = Ok (INegotiate (n * 100000)) /\
  parse_intent_head (decimal n ++ txt "m") true "JPY"
  = Ok (INegotiate (if n <? 1000 then n * 1000000 else n)).
Proof.
  split; [|split]; rewrite amount_text_intent by (lia || reflexivity).
  - rewrite <- scale_k; reflexivity.
  - rewrite <- scale_lakh; reflexivity.
  - rewrite <- scale_m; reflexivity.
Qed.

Lemma amount_suffix_scaling_witness :
  parse_intent_head (txt "2500k") true "JPY" = Ok (INegotiate 2500000) /\
  parse_intent_head (txt "2500 lakh") true "JPY" = Ok (INegotiate 250000000) /\
  parse_intent_head (txt "2500m") true "JPY" = Ok (INegotiate 2500).
Proof. exact (amount_suffix_scaling 2500 ltac:(lia)). Defined.

Lemma forallb_firstn1 {A} (f : A -> bool) (l : list A) :
  forallb f l = true -> forallb f (firstn 1 l) = true.
Proof. destruct l as [|x l]; [reflexivity|]; simpl; intros H; apply andb_true_iff in H as [H _]; rewrite H; reflexivity. Qed.

Lemma strip_all (t : text) : forallb (fun c => negb (is_space c)) t = true -> strip t = t.
Proof.
  intros H; apply strip_id; apply forallb_firstn1; [exact H|]; rewrite forallb_rev'; exact H.
Qed.

Lemma dotted_not_space (t : text) :
  forallb dotted_char t = true -> forallb (fun c => negb (is_space c)) t = true.
Proof.
  apply forallb_impl; intros x Hx; unfold dotted_char in Hx; apply orb_true_iff in Hx as [Hx|Hx].
  - rewrite digit_not_space by exact Hx; reflexivity.
  - apply Ascii.eqb_eq in Hx; subst x; reflexivity.
Qed.

Lemma map_lower_dotted (t : text) : forallb dotted_char t = true -> map lower_char t = t.
Proof.
  induction t as [|x t IH]; intros H; [reflexivity|].
  simpl in H |- *; apply andb_true_iff in H as [Hx H]; rewrite IH by exact H; f_equal.
  unfold dotted_char in Hx; apply orb_true_iff in Hx as [Hx|Hx].
  - exact (lower_char_digit x Hx).
  - apply Ascii.eqb_eq in Hx; subst x; reflexivity.
Qed.

Lemma dotted_intent (D1 D2 D3 : text) (cur : string) :
  forallb is_digit D1 = true -> D1 <> [] ->
  forallb dotted_char D2 = true -> forallb dotted_char D3 = true ->
  parse_intent_head (D1 ++ "."%char :: D2 ++ "."%char :: D3) true cur = Raise ValueError.
Proof.
  intros H1 N1 H2 H3.
  destruct D1 as [|c D] eqn:Ed; [contradiction|].
  simpl in H1; apply andb_true_iff in H1 as [Hc HD].
  set (T := (c :: D) ++ "."%char :: D2 ++ "."%char :: D3).
  assert (Hdig : forall D0, forallb is_digit D0 = true -> forallb dotted_char D0 = true)
    by (intros D0; apply forallb_impl; intros x Hx; unfold dotted_char; rewrite Hx; reflexivity).
  assert (HT : forallb dotted_char T = true).
  { assert (E : forallb dotted_char (c :: D) = true)
      by (apply Hdig; cbn [forallb]; rewrite Hc; exact HD).
    unfold T; rewrite forallb_app; apply andb_true_iff; split; [exact E|].
    cbn [forallb]; rewrite forallb_app; cbn [forallb]; rewrite H2, H3; reflexivity. }
  assert (Hcls : forall D0, forallb dotted_char D0 = true -> forallb in_amount_class D0 = true).
  { intros D0; apply forallb_impl; intros x Hx; unfold dotted_char in Hx; unfold in_amount_class.
    apply orb_true_iff in Hx as [Hx|Hx]; rewrite Hx; [reflexivity | apply orb_true_r]. }
  assert (Hnc : forall D0, forallb dotted_char D0 = true -> remove_commas D0 = D0).
  { intros D0 H; apply filter_all; refine (forallb_impl _ _ _ _ H); intros x Hx.
    unfold dotted_char in Hx; apply orb_true_iff in Hx as [Hx|Hx].
    - rewrite digit_not_comma by exact Hx; reflexivity.
    - apply Ascii.eqb_eq in Hx; subst x; reflexivity. }
  unfold parse_intent_head.
  replace (lower T) with T by (symmetry; apply map_lower_dotted, HT).
  rewrite (strip_all T (dotted_not_space T HT)).
  rewrite (one_of_allowed dotted_char _ _ HT) by reflexivity.
  rewrite (any_in_allowed dotted_char accept_words _ HT) by reflexivity.
  rewrite (any_in_allowed dotted_char reject_words _ HT) by reflexivity.
  rewrite (any_in_allowed dotted_char discount_words _ HT) by reflexivity.
  assert (Hm : money_search T = Some (T, None)).
  { assert (Hcl : forallb in_amount_class (D ++ "."%char :: D2 ++ "."%char :: D3) = true).
    { apply Hcls. unfold T in HT; simpl in HT.
      apply andb_true_iff in HT; exact (proj2 HT). }
    pose proof (money_search_digit c _ [] Hc Hcl I) as M.
    rewrite app_nil_r in M. change (match_suffix (drop_spaces [])) with (@None string) in M.
    exact M. }
  rewrite Hm, Hnc by exact HT. unfold T; rewrite parse_float_two_dots; [reflexivity|].
  cbn [forallb]; rewrite Hc; exact HD.
Qed.

Lemma chat_inv_initiate (c : car) (s : session) : chat_inv s -> chat_inv (initiate_negotiation c s).
Proof.
  intros [_ Hl]; split.
  - intros c' E; injection E as <-; reflexivity.
  - exact Hl.
Qed.

Lemma chat_inv_add_message (s : session) (m : message) : chat_inv s -> chat_inv (add_message s m).
Proof. intros H; exact H. Qed.

Lemma chat_inv_accept (s : session) : chat_inv s -> chat_inv (handle_accept_offer s).
Proof.
  intros H; pose proof H as [Hn Hl]; unfold handle_accept_offer.
  destruct (negotiation_context s) as [c|] eqn:Ec; [|exact (chat_inv_add_message _ _ H)].
  rewrite (Hn c eq_refl). simpl truthy. cbn [negb andb].
  destruct (step_eqb (ctx_step c) Initial); [|exact (chat_inv_add_message _ _ H)].
  destruct (negb (Qeq_bool (inject_Z (original_price c)) 0)); [|exact (chat_inv_add_message _ _ H)].
  split; [discriminate|]. intros d E; injection E as <-; reflexivity.
Qed.

Lemma chat_inv_discount (s : session) : chat_inv s -> chat_inv (handle_discount_inquiry s).
Proof.
  intros H; pose proof H as [Hn Hl]; unfold handle_discount_inquiry.
  destruct (negotiation_context s) as [c|] eqn:Ec; [|exact (chat_inv_add_message _ _ H)].
  split; [|exact Hl]. intros c' E; injection E as <-; exact (Hn c eq_refl).
Qed.

Lemma chat_inv_respond (u : text) (a a' : agent) :
  chat_inv (ss a) -> respond u a = Ok (Some a') -> chat_inv (ss a').
Proof.
  intros H; unfold respond.
  destruct (parse_intent_head u (negotiating a) (a_currency a)) as [i|e]; [|discriminate].
  destruct i; try discriminate.
  - intros E; injection E as <-; exact (chat_inv_accept _ H).
  - intros E; injection E as <-. unfold handle_show_next_deal.
    destruct (nth_error _ _); split; try discriminate; apply H.
  - intros E; injection E as <-; exact (chat_inv_discount _ H).
  - unfold handle_negotiation_value; destruct (negotiation_context (ss a)); [discriminate|].
    intros E; injection E as <-; exact H.
Qed.

Lemma ss_show_next_deal (a : agent) : ss (handle_show_next_deal a) = ss a.
Proof. unfold handle_show_next_deal; destruct (nth_error _ _); reflexivity. Qed.

Lemma chat_inv_close (s : session) :
  chat_inv s ->
  chat_inv {| history := history s; negotiation_context := None;
              last_deal_context := last_deal_context s;
              invoice_to_render := invoice_to_render s; query_context := [] |}.
Proof. intros [_ Hl]; split; [discriminate | exact Hl]. Qed.

Lemma chat_inv_further (a a' : agent) :
  chat_inv (ss a) -> further_outcome a a' -> chat_inv (ss a').
Proof.
  intros H Hf; destruct Hf.
  - unfold handle_request_invoice; destruct (last_deal_context (ss a)) as [c|] eqn:Ed; [|exact H].
    destruct H as [Hn Hl]; split; cbn; [exact Hn|]; rewrite <- Ed; exact Hl.
  - unfold handle_show_deals; destruct (filter _ _);
      [|rewrite ss_show_next_deal]; exact (chat_inv_close _ H).
  - exact H.
  - unfold handle_search_vehicle; destruct (_ && _ && _ && _);
      [|destruct (filter _ _); [|rewrite ss_show_next_deal]];
      (split; [discriminate | exact (proj2 H)]).
  - exact H.
Qed.

Lemma chat_inv_step (a a' : agent) : chat_inv (ss a) -> ui_step a a' -> chat_inv (ss a').
Proof.
  intros H Hs; destruct Hs as [c a|u a a' E|u a E|u a a' E F|u a e E|a b f cur|a].
  - exact (chat_inv_initiate c _ H).
  - exact (chat_inv_respond u a a' H E).
  - exact H.
  - exact (chat_inv_further a a' H F).
  - exact H.
  - exact H.
  - destruct H as [Hn Hl]; split; [exact Hn | exact Hl].
Qed.

(** Along any run of the page once the chat has started ("Negotiate" and
    "Pass" presses, chat messages of every intent, including the ones that
    raise, sidebar changes and shown invoices), every deal closed is at the
    car's listing price: neither an offer nor the discount the agent
    proposes ever becomes the price of a deal. *)
Theorem chat_deals_at_listing_price (a a' : agent) (d : ctx)
  (Hinv : chat_inv (ss a)) (Hrun : ui_runs a a')
  (Hdeal : last_deal_context (ss a') = Some d) :
  final_price d = Some (inject_Z (original_price d)).
Proof.
  induction Hrun as [a|a a1 a' Hs Hrun IH].
  - exact (proj2 Hinv d Hdeal).
  - exact (IH (chat_inv_step a a1 Hinv Hs) Hdeal).
Qed.

Lemma chat_deals_at_listing_price_witness :
  exists a' d, ui_runs chat_start a' /\
    last_deal_context (ss a') = Some d /\ final_price d = Some (inject_Z (original_price d)).
Proof.
  set (a1 := add_browse chat_start MsgGreeting).
  set (a2 := pick (toyota 850000) a1).
  set (a3 := set_ss a2 (handle_discount_inquiry (ss a2))).
  set (a4 := set_ss a3 (handle_accept_offer (ss a3))).
  set (a4' := pick (toyota 850000) a4).
  set (a4'' := set_ss a4' (handle_accept_offer (ss a4'))).
  set (a5 := handle_show_deals a4'').
  set (a6 := pick (toyota 850000) a5).
  set (a8 := handle_request_invoice a6).
  assert (E3 : respond (txt "Can you give a discount?") a2 = Ok (Some a3))
    by (vm_compute; reflexivity).
  assert (E4 : respond (txt "ok") a3 = Ok (Some a4)) by (vm_compute; reflexivity).
  assert (E4'' : respond (txt "OK, deal") a4' = Ok (Some a4'')) by (vm_compute; reflexivity).
  assert (E7 : respond (txt "1.000.000") a6 = Raise ValueError) by (vm_compute; reflexivity).
  destruct (last_deal_context (ss a8)) as [d|] eqn:Ed;
    [|pose proof Ed as Ed'; vm_compute in Ed'; discriminate Ed'].
  exists a8, d.
  assert (R : ui_runs chat_start a8).
  { apply (RunsStep _ a1); [apply (SGreeting (txt "hello")); reflexivity|].
    apply (RunsStep _ a2); [apply SPick|].
    apply (RunsStep _ a3); [apply (SSay (txt "Can you give a discount?")); exact E3|].
    apply (RunsStep _ a4); [apply (SSay (txt "ok")); exact E4|].
    apply (RunsStep _ a4'); [apply SPick|].
    apply (RunsStep _ a4''); [apply (SSay (txt "OK, deal")); exact E4''|].
    apply (RunsStep _ a5); [apply (SFurther (txt "show deals")); [vm_compute; reflexivity | apply FShowDeals]|].
    apply (RunsStep _ a6); [apply SPick|].
    apply (RunsStep _ a6); [apply (SRaise (txt "1.000.000") _ ValueError); exact E7|].
    apply (RunsStep _ a8); [apply (SFurther (txt "invoice")); [vm_compute; reflexivity | apply FInvoice]|].
    apply RunsDone. }
  split; [exact R|]. split; [exact Ed|].
  refine (chat_deals_at_listing_price chat_start a8 d _ R Ed).
  split; intros ? E; discriminate E.
Defined.

Lemma title_aux_length (b : bool) (t : text) : length (title_aux b t) = length t.
Proof.
  revert b; induction t as [|c t IH]; intros b; [reflexivity|].
  simpl; destruct (is_alpha c); simpl; rewrite IH; reflexivity.
Qed.

Lemma filter_length_lt {A} (f : A -> bool) (l : list A) (x : A) :
  In x l -> f x = false -> (length (filter f l) < length l)%nat.
Proof.
  induction l as [|y l IH]; intros Hin Hx; [destruct Hin|].
  pose proof (filter_length_le f l) as L.
  destruct Hin as [<-|Hin]; simpl; [rewrite Hx; lia|].
  specialize (IH Hin Hx); destruct (f y); simpl; lia.
Qed.

Lemma remove_s_shorter (t : text) :
  existsb (Ascii.eqb "s"%char) t = true -> (length (remove_s t) < length t)%nat.
Proof.
  intros H; apply existsb_exists in H as [c [Hin Hc]]; apply Ascii.eqb_eq in Hc; subst c.
  apply (filter_length_lt _ _ "s"%char Hin); reflexivity.
Qed.

Lemma remove_s_nonempty (t : text) :
  existsb (fun c => negb (Ascii.eqb c "s"%char)) t = true -> remove_s t <> [].
Proof.
  intros H; apply existsb_exists in H as [c [Hin Hc]].
  intros E; assert (Hf : In c (remove_s t)) by (apply filter_In; auto).
  rewrite E in Hf; exact Hf.
Qed.

(** A make whose name contains the letter s (Nissan, Suzuki, Subaru, ...)
    is read as a different, shorter name, so a search that names it finds
    none of that make's cars. *)
Theorem make_with_s_never_found (m : string) (g : text) (p : search_params) (r : row)
  (Hg : g = lower (txt m) \/ g = lower (txt m) ++ txt "s")
  (Hs : existsb (Ascii.eqb "s"%char) (lower (txt m)) = true)
  (Hother : existsb (fun c => negb (Ascii.eqb c "s"%char)) (lower (txt m)) = true)
  (Hp : p_make p = Some (string_of_list_ascii (make_of_match g)))
  (Hr : r_make r = m) :
  search_matches p r = false.
Proof.
  assert (Hrm : remove_s g = remove_s (lower (txt m))).
  { destruct Hg as [-> | ->]; [reflexivity|].
    unfold remove_s; rewrite filter_app; simpl; apply app_nil_r. }
  set (k := string_of_list_ascii (make_of_match g)) in *.
  assert (Hk : txt k = make_of_match g) by apply list_ascii_of_string_of_list_ascii.
  assert (Hlen : (length (txt k) < length (txt m))%nat).
  { rewrite Hk; unfold make_of_match, title; rewrite title_aux_length, Hrm.
    pose proof (remove_s_shorter _ Hs) as L; unfold lower in L; rewrite length_map in L; exact L. }
  assert (Hne : k <> ""%string).
  { intros E. apply (remove_s_nonempty _ Hother). rewrite <- Hrm.
    apply (f_equal (@length ascii)) in Hk. rewrite E in Hk.
    unfold make_of_match, title in Hk; rewrite title_aux_length in Hk.
    destruct (remove_s g); [reflexivity | discriminate]. }
  assert (Hkm : k <> m) by (intros E; rewrite E in Hlen; lia).
  unfold search_matches, opt_str_filter at 1; rewrite Hp, Hr.
  rewrite (proj2 (String.eqb_neq k ""%string) Hne).
  rewrite (proj2 (String.eqb_neq m k) (fun E => Hkm (eq_sym E))). reflexivity.
Qed.

Lemma make_with_s_never_found_witness :
  make_of_match (txt "nissan") = txt "Nian" /\
  search_matches {| p_make := Some (string_of_list_ascii (make_of_match (txt "nissan")));
                    p_model := None; p_year := Some 2019; p_color := None |} nissan_row = false.
Proof.
  split; [reflexivity|].
  exact (make_with_s_never_found "Nissan" (txt "nissan")
           {| p_make := Some (string_of_list_ascii (make_of_match (txt "nissan")));
              p_model := None; p_year := Some 2019; p_color := None |} nissan_row
           (or_introl eq_refl) eq_refl eq_refl eq_refl eq_refl).
Defined.

(** A yen price as [_format_price] shows it, typed back while negotiating,
    is read as an offer of exactly that amount. *)
Theorem displayed_price_parses_back (n : Z) (Hn : 0 <= n < 2 ^ 53) :
  parse_intent_head (format_price "JPY" (inject_Z n)) true "JPY" = Ok (INegotiate n).
Proof. apply price_text_intent; lia. Qed.

Lemma displayed_price_parses_back_witness :
  format_price "JPY" (inject_Z 1234567) = txt "JPY 1,234,567" /\
  parse_intent_head (format_price "JPY" (inject_Z 1234567)) true "JPY" = Ok (INegotiate 1234567).
Proof. split; [reflexivity | apply displayed_price_parses_back; lia]. Defined.

(** While negotiating in yen, typing back a price the agent displayed makes
    [respond] raise [TypeError]: the negotiate handler receives the params
    dict and compares it with a number. *)
Theorem typed_back_price_raises (a : agent) (c : ctx) (n : Z)
  (Hc : negotiation_context (ss a) = Some c) (Hcur : a_currency a = "JPY"%string)
  (Hn : 0 <= n < 2 ^ 53) :
  respond (format_price "JPY" (inject_Z n)) a = Raise TypeError.
Proof.
  unfold respond, negotiating; rewrite Hc, Hcur, price_text_intent by lia.
  unfold handle_negotiation_value; rewrite Hc; reflexivity.
Qed.

Lemma typed_back_price_raises_witness :
  respond (format_price "JPY" (inject_Z 1000000)) sample_agent = Raise TypeError.
Proof. refine (typed_back_price_raises sample_agent _ 1000000 eq_refl eq_refl _); lia. Defined.

(** While negotiating, a message that is an amount with two dots or more
    (a digit group, a dot, digits and dots, a dot, digits and dots: such as
    1.000.000, 1.050.500 or 1.050.) makes [respond] raise [ValueError] from
    [float]. *)
Theorem two_dot_amount_raises (a : agent) (c : ctx) (D1 D2 D3 : text)
  (Hc : negotiation_context (ss a) = Some c)
  (H1 : forallb is_digit D1 = true) (N1 : D1 <> [])
  (H2 : forallb dotted_char D2 = true) (H3 : forallb dotted_char D3 = true) :
  respond (D1 ++ "."%char :: D2 ++ "."%char :: D3) a = Raise ValueError.
Proof. unfold respond, negotiating; rewrite Hc, dotted_intent by assumption; reflexivity. Qed.

Lemma two_dot_amount_raises_witness :
  respond (txt "1.000.000") sample_agent = Raise ValueError
  /\ respond (txt "1.050.") sample_agent = Raise ValueError.
Proof.
  split.
  - exact (two_dot_amount_raises sample_agent _ (txt "1") (txt "000") (txt "000")
             eq_refl eq_refl ltac:(discriminate) eq_refl eq_refl).
  - exact (two_dot_amount_raises sample_agent _ (txt "1") (txt "050") []
             eq_refl eq_refl ltac:(discriminate) eq_refl eq_refl).
Defined.

(** While negotiating, a message containing an accept word anywhere (as in
    "No deal") is handled as an acceptance, whatever else it says. *)
Theorem accept_keyword_confirms (u : text) (a : agent) (c : ctx)
  (Hc : negotiation_context (ss a) = Some c)
  (Hacc : any_in accept_words (strip (lower u)) = true) :
  respond u a = Ok (Some (set_ss a (handle_accept_offer (ss a)))).
Proof.
  unfold respond, negotiating, parse_intent_head; rewrite Hc.
  destruct (one_of (strip (lower u)) ["hello"; "hi"; "hey"]%string) eqn:G.
  - apply one_of_in in G as [w [Hin Hw]]; rewrite Hw in Hacc.
    destruct Hin as [<-|[<-|[<-|[]]]]; vm_compute in Hacc; discriminate Hacc.
  - rewrite Hacc; reflexivity.
Qed.

Lemma accept_keyword_confirms_witness :
  exists a', respond (txt "No deal") sample_agent = Ok (Some a') /\
    negotiation_context (ss a') = None /\ last_deal_context (ss a') <> None.
Proof.
  eexists; split; [exact (accept_keyword_confirms (txt "No deal") sample_agent _ eq_refl eq_refl)|].
  split; [reflexivity | discriminate].
Defined.

(** While negotiating, a message with a reject word anywhere (as in
    "cannot") and no accept word ends the negotiation, keeps the last deal
    and moves to the next search result. *)
Theorem reject_keyword_ends_negotiation (u : text) (a : agent) (c : ctx)
  (Hc : negotiation_context (ss a) = Some c)
  (Hacc : any_in accept_words (strip (lower u)) = false)
  (Hrej : any_in reject_words (strip (lower u)) = true) :
  exists a', respond u a = Ok (Some a') /\
    negotiation_context (ss a') = None /\
    last_deal_context (ss a') = last_deal_context (ss a) /\
    current_car_to_display a' = nth_error (search_results a) (search_results_index a).
Proof.
  unfold respond, negotiating, parse_intent_head; rewrite Hc.
  destruct (one_of (strip (lower u)) ["hello"; "hi"; "hey"]%string) eqn:G.
  - apply one_of_in in G as [w [Hin Hw]]; rewrite Hw in Hrej.
    destruct Hin as [<-|[<-|[<-|[]]]]; vm_compute in Hrej; discriminate Hrej.
  - rewrite Hacc, Hrej. eexists; split; [reflexivity|].
    unfold handle_show_next_deal; simpl.
    destruct (nth_error (search_results a) (search_results_index a)); simpl; auto.
Qed.

Lemma reject_keyword_ends_negotiation_witness :
  exists a', respond (txt "I cannot pay 900k") sample_agent = Ok (Some a') /\
    negotiation_context (ss a') = None /\
    last_deal_context (ss a') = last_deal_context (ss sample_agent) /\
    current_car_to_display a' = nth_error (search_results sample_agent) (search_results_index sample_agent).
Proof. exact (reject_keyword_ends_negotiation (txt "I cannot pay 900k") sample_agent _ eq_refl eq_refl eq_refl). Defined.

